(** * Import order service: a shallow embedding of [services/imports/server.js]

    The development follows the Express handlers of the imports service, the
    [authorize] middleware of [middleware/auth.js] and the SQLite schema of
    the database initialisation script.  JavaScript numbers are IEEE-754
    binary64 values, tables are lists of rows in insertion order, and the
    effects of a handler (awaited storage calls that may reject, the
    surrounding [try]/[catch]) are written in a small state-and-exception
    monad. *)

From Stdlib Require Import ZArith List Bool Lia String Ascii DecimalString.
From Stdlib Require Import Sorting.Sorted Sorting.Permutation.
From Stdlib Require Import Floats.SpecFloat.
Import ListNotations.

Local Open Scope string_scope.
Local Open Scope list_scope.
Local Open Scope Z_scope.

(** ** JavaScript numbers *)

(** A JavaScript [number] is a binary64 float: 53 bits of precision and a
    maximal exponent of 1024.  Arithmetic rounds to nearest, ties to even. *)
Definition number : Type := spec_float.

Module Num.

Definition prec : Z := 53.
Definition emax : Z := 1024.

(** The number denoted by an integer literal. *)
Definition of_Z (z : Z) : number := binary_normalize prec emax z 0 false.

Definition zero : number := of_Z 0.

Definition add (x y : number) : number := SFadd prec emax x y.
Definition mul (x y : number) : number := SFmul prec emax x y.
Definition div (x y : number) : number := SFdiv prec emax x y.

Definition ltb (x y : number) : bool := SFltb x y.

Definition is_nan (x : number) : bool :=
  match x with S754_nan => true | _ => false end.

Definition is_finite (x : number) : bool :=
  match x with S754_zero _ | S754_finite _ _ _ => true | _ => false end.

(** [Number.MAX_SAFE_INTEGER] *)
Definition MAX_SAFE_INTEGER : Z := 2 ^ 53 - 1.

(** The number a decimal literal with two fractional digits parses to:
    [of_cents 1999] is the value of the JSON token [19.99], the binary64
    nearest to 1999/100. *)
Definition of_cents (c : Z) : number := div (of_Z c) (of_Z 100).

(** The amount in minor units (hundredths) nearest to a finite number,
    halves rounded up; computed exactly on the mantissa and exponent. *)
Definition to_cents (x : number) : option Z :=
  match x with
  | S754_zero _ => Some 0
  | S754_finite s m e =>
      let a := if 0 <=? e
               then Z.pos m * 100 * 2 ^ e
               else (2 * (Z.pos m * 100) + 2 ^ (- e)) / 2 ^ (- e + 1) in
      Some (if s then - a else a)
  | _ => None
  end.

End Num.

(** ** Strings: base 36, upper case *)

Definition digit36 (d : Z) : ascii :=
  if d <? 10 then ascii_of_nat (Z.to_nat (48 + d))
  else ascii_of_nat (Z.to_nat (97 + (d - 10))).

(** [n.toString(36)] for a non-negative integer [n]; [fuel] bounds the
    number of digits. *)
Fixpoint toString36_fuel (fuel : nat) (n : Z) : string :=
  match fuel with
  | O => ""
  | S f =>
      if n <? 36 then String (digit36 n) ""
      else (toString36_fuel f (n / 36) ++ String (digit36 (n mod 36)) "")%string
  end.

Definition toString36 (n : Z) : string :=
  toString36_fuel (S (Z.to_nat (Z.log2 n))) n.

(** The value of a base-36 digit and of a base-36 numeral, as [parseInt]
    with radix 36 reads them. *)
Definition value36 (c : ascii) : Z :=
  let n := Z.of_nat (nat_of_ascii c) in
  if n <? 58 then n - 48 else n - 87.

Fixpoint parse36_from (acc : Z) (s : string) : Z :=
  match s with
  | EmptyString => acc
  | String c r => parse36_from (36 * acc + value36 c) r
  end.

Definition parseInt36 (s : string) : Z := parse36_from 0 s.

Definition upper_ascii (c : ascii) : ascii :=
  let n := nat_of_ascii c in
  if (97 <=? n)%nat && (n <=? 122)%nat then ascii_of_nat (n - 32) else c.

Fixpoint toUpperCase (s : string) : string :=
  match s with
  | EmptyString => EmptyString
  | String c r => String (upper_ascii c) (toUpperCase r)
  end.

(** What a request reads from its surroundings: the clock and the random
    source of the process, and the clock of the storage engine. *)
Record env : Type := mkEnv {
  date_now : Z;               (* Date.now(), milliseconds *)
  random_base36 : string;     (* Math.random().toString(36), as "0.xxxxx" *)
  current_timestamp : string  (* CURRENT_TIMESTAMP, 'YYYY-MM-DD HH:MM:SS' *)
}.

(** [generateImportCode]:
    [`IMP-${timestamp}-${random}`.toUpperCase()] with
    [timestamp = Date.now().toString(36)] and
    [random = Math.random().toString(36).substr(2, 5)]. *)
Definition generateImportCode (e : env) : string :=
  let timestamp := toString36 (date_now e) in
  let random := substring 2 5 (random_base36 e) in
  toUpperCase ("IMP-" ++ timestamp ++ "-" ++ random)%string.

(** ** The schema

    One record per table of the initialisation script, with the columns the
    imports service reads or writes; a table is the list of its rows in
    insertion order.  Nullable columns are options.  [created_at] and
    [updated_at] hold the text SQLite's [CURRENT_TIMESTAMP] yields. *)

Module Users.
Record row : Type := mk {
  id : Z;
  username : string;
  role : string
}.
End Users.

Module Suppliers.
Record row : Type := mk {
  id : Z;
  name : string;
  country : string
}.
End Suppliers.

Module Products.
Record row : Type := mk {
  id : Z;
  name : string;
  description : option string
}.
End Products.

Module Imports.
Record row : Type := mk {
  id : Z;
  import_code : string;
  user_id : Z;
  supplier_id : Z;
  status : string;
  total_amount : number;
  import_date : Z;
  estimated_arrival : option Z;
  tracking_number : option string;
  notes : option string;
  created_at : string;
  updated_at : string
}.
End Imports.

Module Items.
Record row : Type := mk {
  id : Z;
  import_id : Z;
  product_id : Z;
  quantity : Z;
  unit_price : number;
  total_price : number;
  created_at : string
}.
End Items.

(** The database: the five tables, the [AUTOINCREMENT] counters of the two
    tables the service inserts into, and whether the connection enforces
    the declared foreign keys ([PRAGMA foreign_keys]; the connection module
    is not part of the sources, SQLite's default is off). *)
Record database : Type := mkDb {
  users : list Users.row;
  suppliers : list Suppliers.row;
  products : list Products.row;
  imports : list Imports.row;
  import_items : list Items.row;
  imports_seq : Z;
  import_items_seq : Z;
  foreign_keys : bool
}.

(** ** Relational operators *)

Section Relational.

Context {A B K : Type}.

(** [l LEFT JOIN r ON on]: every row of [l] with each matching row of [r],
    or once with NULLs when none matches. *)
Definition left_join (l : list A) (r : list B) (on : A -> B -> bool)
  : list (A * option B) :=
  flat_map (fun x =>
              match filter (on x) r with
              | [] => [(x, None)]
              | ms => map (fun y => (x, Some y)) ms
              end) l.

(** [ORDER BY]: a stable insertion sort for the order [leb]. *)
Fixpoint insert_sorted (leb : A -> A -> bool) (x : A) (l : list A) : list A :=
  match l with
  | [] => [x]
  | y :: r => if leb x y then x :: y :: r else y :: insert_sorted leb x r
  end.

Definition order_by (leb : A -> A -> bool) (l : list A) : list A :=
  fold_right (insert_sorted leb) [] l.

(** [GROUP BY]: rows are added one at a time to the group of their key;
    groups appear in the order their first row does. *)
Fixpoint add_to_group (eqb : K -> K -> bool) (k : K) (x : A)
  (g : list (K * list A)) : list (K * list A) :=
  match g with
  | [] => [(k, [x])]
  | (k', xs) :: g' =>
      if eqb k k' then (k', xs ++ [x]) :: g'
      else (k', xs) :: add_to_group eqb k x g'
  end.

Definition group_by (eqb : K -> K -> bool) (key : A -> K) (rows : list A)
  : list (K * list A) :=
  fold_left (fun g x => add_to_group eqb (key x) x g) rows [].


End Relational.

(** A floating-point result is stored as NULL when it is not a number. *)
Definition sql_real (x : number) : option number :=
  if Num.is_nan x then None else Some x.

Definition non_null {A : Type} (l : list (option A)) : list A :=
  flat_map (fun o => match o with Some a => [a] | None => [] end) l.

(** [SUM(col)]: NULL when no row has a value, else the values added up in
    row order, in double precision. *)
Definition sql_sum (col : list (option number)) : option number :=
  match non_null col with
  | [] => None
  | vs => sql_real (fold_left Num.add vs Num.zero)
  end.

(** [COUNT(col)] counts the rows where the column is not NULL. *)
Definition sql_count {A : Type} (col : list (option A)) : Z :=
  Z.of_nat (List.length (non_null col)).

(** The order of [ORDER BY] on a nullable number: NULL is the smallest. *)
Definition sql_leb (a b : option number) : bool :=
  match a, b with
  | None, _ => true
  | Some _, None => false
  | Some x, Some y =>
      match SFcompare x y with
      | Some Gt => false
      | _ => true
      end
  end.


(** ** Storage calls

    [db.query] and [db.run] return promises.  An awaited call either
    resolves or rejects; a rejection is an exception that unwinds to the
    handler's [catch].  A statement rejects when it violates a constraint
    of the schema, and any call may reject for a reason of the storage
    engine: the [faults] of the world say, call after call, which ones do
    (an exhausted list means no further fault). *)

Record world : Type := mkWorld {
  db : database;
  faults : list bool
}.

Inductive result (A : Type) : Type :=
| Resolved (a : A)
| Rejected.

Arguments Resolved {A} a.
Arguments Rejected {A}.

Definition async (A : Type) : Type := world -> result A * world.

Definition ret {A : Type} (a : A) : async A := fun w => (Resolved a, w).

Definition bind {A B : Type} (m : async A) (k : A -> async B) : async B :=
  fun w =>
    match m w with
    | (Resolved a, w') => k a w'
    | (Rejected, w') => (Rejected, w')
    end.

Declare Scope async_scope.
Delimit Scope async_scope with async.
Notation "x <- m ;; k" := (bind m (fun x => k))
  (at level 100, m at next level, right associativity) : async_scope.
Notation "m ;;; k" := (bind m (fun _ => k))
  (at level 100, right associativity) : async_scope.

(** The next call's fault flag, and the flags left for the later calls. *)
Definition next_fault (fs : list bool) : bool * list bool :=
  match fs with
  | [] => (false, [])
  | f :: rest => (f, rest)
  end.

(** [await db.query(sql, params)] for a statement that reads. *)
Definition db_query {A : Type} (q : database -> A) : async A :=
  fun w =>
    let (fault, rest) := next_fault (faults w) in
    if fault then (Rejected, mkWorld (db w) rest)
    else (Resolved (q (db w)), mkWorld (db w) rest).

(** [await db.run(sql, params)] for a statement that writes; the statement
    yields [None] when a constraint rejects it. *)
Definition db_run {A : Type} (stmt : database -> option (A * database))
  : async A :=
  fun w =>
    let (fault, rest) := next_fault (faults w) in
    if fault then (Rejected, mkWorld (db w) rest)
    else match stmt (db w) with
         | Some (a, d) => (Resolved a, mkWorld d rest)
         | None => (Rejected, mkWorld (db w) rest)
         end.

(** [for (const x of l) { await f(x) }] *)
Fixpoint for_each {A : Type} (l : list A) (f : A -> async unit) : async unit :=
  match l with
  | [] => ret tt
  | x :: r => bind (f x) (fun _ => for_each r f)
  end.

(** ** Responses *)

(** A route parameter or query value compared with an integer column: the
    integer the text denotes, or a text that denotes none (which equals no
    stored identifier). *)
Inductive param : Type :=
| PInt (z : Z)
| PText.

Definition param_eqb (p : param) (z : Z) : bool :=
  match p with
  | PInt n => n =? z
  | PText => false
  end.

(** Rows of the joins the handlers return. *)
Definition import_view : Type :=
  (Imports.row * option Suppliers.row) * option Users.row.

Definition view_import (v : import_view) : Imports.row := fst (fst v).
Definition supplier_name (v : import_view) : option string :=
  option_map Suppliers.name (snd (fst v)).
Definition supplier_country (v : import_view) : option string :=
  option_map Suppliers.country (snd (fst v)).
Definition created_by (v : import_view) : option string :=
  option_map Users.username (snd v).

Definition item_view : Type := Items.row * option Products.row.

Module StatusStat.
Record row : Type := mk {
  status : string;
  count : Z;
  total_value : option number
}.
End StatusStat.

Module MonthStat.
Record row : Type := mk {
  month : string;
  imports_count : Z;
  total_value : option number
}.
End MonthStat.

Module SupplierStat.
Record row : Type := mk {
  name : string;
  imports_count : Z;
  total_value : option number
}.
End SupplierStat.

(** The JSON bodies of the service.  [PInvalid] is the body of a 400
    answer to a create request, [{ error: error.details[0].message }]: Joi's
    message for the first offending key, represented by the label of that
    key. *)
Inductive payload : Type :=
| PError (error : string)
| PInvalid (label : string)
| PImports (rows : list import_view)
| PImport (row : import_view) (items : list item_view)
| PCreated (message : string) (import : option (Imports.row * option Suppliers.row))
| PUpdated (message : string) (import : Imports.row)
| PStats (statusBreakdown : list StatusStat.row)
    (monthlyTrends : list MonthStat.row)
    (topSuppliers : list SupplierStat.row).

Record response : Type := json {
  status_code : Z;
  body : payload
}.

Definition handler : Type := world -> response * world.

(** [try { ... } catch (error) { res.status(500).json(...) }] *)
Definition try_catch (block : async response) (on_error : response) : handler :=
  fun w =>
    match block w with
    | (Resolved r, w') => (r, w')
    | (Rejected, w') => (on_error, w')
    end.

Definition internal_error : response :=
  json 500 (PError "Error interno del servidor").

Definition not_found : response :=
  json 404 (PError "Importación no encontrada").

(** ** Request validation: [importSchema]

    The body of a create request, after JSON parsing.  Identifiers and
    quantities are integers; a unit price is any number. *)

Module Body.
Record item : Type := mkItem {
  product_id : Z;
  quantity : Z;
  unit_price : number
}.

Record import : Type := mk {
  supplier_id : Z;
  import_date : Z;
  estimated_arrival : option Z;
  notes : option string;
  items : list item
}.
End Body.

(** [Joi.number().integer().positive()]: a positive integer within the
    safe range, which Joi requires of every number. *)
Definition positive_integer (z : Z) : bool :=
  (0 <? z) && (z <=? Num.MAX_SAFE_INTEGER).

(** [Joi.number().positive()] *)
Definition positive_number (x : number) : bool :=
  Num.is_finite x && Num.ltb Num.zero x
  && negb (Num.ltb (Num.of_Z Num.MAX_SAFE_INTEGER) x).

(** [Joi.string().max(500)]; Joi's strings are not empty. *)
Definition valid_notes (s : string) : bool :=
  negb (String.eqb s "") && (String.length s <=? 500)%nat.

Definition index_label (k : nat) (field : string) : string :=
  ("items[" ++ DecimalString.NilEmpty.string_of_uint (Nat.to_uint k)
   ++ "]." ++ field)%string.

(** The first offending key of the items from position [k] on. *)
Fixpoint validate_items (k : nat) (l : list Body.item) : option string :=
  match l with
  | [] => None
  | it :: r =>
      if negb (positive_integer (Body.product_id it))
      then Some (index_label k "product_id")
      else if negb (positive_integer (Body.quantity it))
      then Some (index_label k "quantity")
      else if negb (positive_number (Body.unit_price it))
      then Some (index_label k "unit_price")
      else validate_items (S k) r
  end.

(** [importSchema.validate(req.body)]: the label of the first error, keys
    in the order of the schema, or [None] for a valid body. *)
Definition validate (b : Body.import) : option string :=
  if negb (positive_integer (Body.supplier_id b)) then Some "supplier_id"
  else if match Body.notes b with
          | Some s => negb (valid_notes s)
          | None => false
          end
  then Some "notes"
  else match validate_items 0 (Body.items b) with
       | Some l => Some l
       | None =>
           if (1 <=? List.length (Body.items b))%nat then None
           else Some "items"
       end.

(** ** The SQL statements of the service *)

(** [FROM imports i LEFT JOIN suppliers s ON i.supplier_id = s.id
     LEFT JOIN users u ON i.user_id = u.id] *)
Definition imports_joined (d : database) : list import_view :=
  left_join
    (left_join (imports d) (suppliers d)
       (fun i s => Imports.supplier_id i =? Suppliers.id s))
    (users d)
    (fun v u => Imports.user_id (fst v) =? Users.id u).

(** [WHERE c1 AND c2 AND ...] *)
Definition where_all {A : Type} (conds : list (A -> bool)) (l : list A)
  : list A :=
  filter (fun x => forallb (fun c => c x) conds) l.

(** [ORDER BY i.created_at DESC]; timestamps are compared as texts. *)
Definition newest_first (a b : import_view) : bool :=
  String.leb (Imports.created_at (view_import b))
             (Imports.created_at (view_import a)).

Definition select_imports (conds : list (import_view -> bool)) (d : database)
  : list import_view :=
  order_by newest_first (where_all conds (imports_joined d)).

Definition select_import (conds : list (import_view -> bool)) (d : database)
  : list import_view :=
  where_all conds (imports_joined d).

(** [FROM import_items ii LEFT JOIN products p ON ii.product_id = p.id
     WHERE ii.import_id = ?] *)
Definition select_items (id : param) (d : database) : list item_view :=
  where_all [fun v : item_view => param_eqb id (Items.import_id (fst v))]
    (left_join (import_items d) (products d)
       (fun ii p => Items.product_id ii =? Products.id p)).

(** [FROM imports i LEFT JOIN suppliers s ON i.supplier_id = s.id
     WHERE i.id = ?] *)
Definition select_created (id : Z) (d : database)
  : list (Imports.row * option Suppliers.row) :=
  where_all [fun v : Imports.row * option Suppliers.row =>
               Imports.id (fst v) =? id]
    (left_join (imports d) (suppliers d)
       (fun i s => Imports.supplier_id i =? Suppliers.id s)).

(** [SELECT * FROM imports WHERE id = ?] *)
Definition select_by_id (id : param) (d : database) : list Imports.row :=
  where_all [fun i => param_eqb id (Imports.id i)] (imports d).

(** The row identifier an [AUTOINCREMENT] key gives the next row: one more
    than the largest identifier the table holds or ever held. *)
Definition next_rowid (seq : Z) (ids : list Z) : Z :=
  Z.max seq (fold_right Z.max 0 ids) + 1.

Definition has_id {A : Type} (id_of : A -> Z) (table : list A) (id : Z) : bool :=
  existsb (fun r => id_of r =? id) table.

(** Whether a row of [imports] already carries the code. *)
Definition code_taken (code : string) (d : database) : bool :=
  existsb (fun r => String.eqb (Imports.import_code r) code) (imports d).

(** [INSERT INTO imports (import_code, user_id, supplier_id, total_amount,
     import_date, estimated_arrival, notes) VALUES (?, ?, ?, ?, ?, ?, ?)].
    [import_code] is [UNIQUE]; [user_id] and [supplier_id] are foreign
    keys.  [status] defaults to ['pending'], both timestamps to
    [CURRENT_TIMESTAMP], [tracking_number] to NULL.  Resolves to the new
    row identifier. *)
Definition insert_import (e : env) (code : string) (user supplier : Z)
  (total : number) (date : Z) (arrival : option Z) (notes : option string)
  (d : database) : option (Z * database) :=
  if code_taken code d
  then None
  else if foreign_keys d
          && negb (has_id Users.id (users d) user
                   && has_id Suppliers.id (suppliers d) supplier)
  then None
  else
    let id := next_rowid (imports_seq d) (map Imports.id (imports d)) in
    let row := Imports.mk id code user supplier "pending" total date arrival
                 None notes (current_timestamp e) (current_timestamp e) in
    Some (id, mkDb (users d) (suppliers d) (products d)
                (imports d ++ [row]) (import_items d)
                id (import_items_seq d) (foreign_keys d)).

(** [INSERT INTO import_items (import_id, product_id, quantity, unit_price,
     total_price) VALUES (?, ?, ?, ?, ?)]; [import_id] and [product_id] are
    foreign keys. *)
Definition insert_item (e : env) (import product quantity : Z)
  (price total : number) (d : database) : option (unit * database) :=
  if foreign_keys d
     && negb (has_id Imports.id (imports d) import
              && has_id Products.id (products d) product)
  then None
  else
    let id := next_rowid (import_items_seq d) (map Items.id (import_items d)) in
    let row := Items.mk id import product quantity price total
                 (current_timestamp e) in
    Some (tt, mkDb (users d) (suppliers d) (products d)
                (imports d) (import_items d ++ [row])
                (imports_seq d) id (foreign_keys d)).

Definition set_status (e : env) (status : string) (tracking : option string)
  (r : Imports.row) : Imports.row :=
  Imports.mk (Imports.id r) (Imports.import_code r) (Imports.user_id r)
    (Imports.supplier_id r) status (Imports.total_amount r)
    (Imports.import_date r) (Imports.estimated_arrival r) tracking
    (Imports.notes r) (Imports.created_at r) (current_timestamp e).

(** The rows of [imports] after [SET ... WHERE id = ?]. *)
Definition updated_imports (e : env) (status : string) (tracking : option string)
  (id : param) (l : list Imports.row) : list Imports.row :=
  map (fun r => if param_eqb id (Imports.id r)
                then set_status e status tracking r else r) l.

(** [UPDATE imports SET status = ?, tracking_number = ?,
     updated_at = CURRENT_TIMESTAMP WHERE id = ?] *)
Definition update_status (e : env) (status : string) (tracking : option string)
  (id : param) (d : database) : option (unit * database) :=
  Some (tt, mkDb (users d) (suppliers d) (products d)
              (updated_imports e status tracking id (imports d))
              (import_items d) (imports_seq d) (import_items_seq d)
              (foreign_keys d)).

(** [SELECT status, COUNT( * ) as count, SUM(total_amount) as total_value
     FROM imports GROUP BY status] *)
Definition select_status_stats (d : database) : list StatusStat.row :=
  map (fun g : string * list Imports.row =>
         StatusStat.mk (fst g)
           (Z.of_nat (List.length (snd g)))
           (sql_sum (map (fun i => Some (Imports.total_amount i)) (snd g))))
    (group_by String.eqb Imports.status (imports d)).

(** [strftime('%Y-%m', created_at)] of a timestamp text: its first seven
    characters. *)
Definition month_of (timestamp : string) : string := substring 0 7 timestamp.

(** The monthly query; [since] is [date('now', '-12 months')]. *)
Definition select_monthly_stats (since : string) (d : database)
  : list MonthStat.row :=
  order_by (fun a b => String.leb (MonthStat.month b) (MonthStat.month a))
    (map (fun g : string * list Imports.row =>
            MonthStat.mk (fst g)
              (Z.of_nat (List.length (snd g)))
              (sql_sum (map (fun i => Some (Imports.total_amount i)) (snd g))))
       (group_by String.eqb (fun i => month_of (Imports.created_at i))
          (where_all [fun i => String.leb since (Imports.created_at i)]
             (imports d)))).

Definition supplier_key_eqb (a b : Z * string) : bool :=
  (fst a =? fst b) && String.eqb (snd a) (snd b).

Definition supplier_key (v : Suppliers.row * option Imports.row) : Z * string :=
  (Suppliers.id (fst v), Suppliers.name (fst v)).

Definition supplier_stat (g : (Z * string) * list (Suppliers.row * option Imports.row))
  : SupplierStat.row :=
  SupplierStat.mk (snd (fst g))
    (sql_count (map (fun v => option_map Imports.id (snd v)) (snd g)))
    (sql_sum (map (fun v => option_map Imports.total_amount (snd v)) (snd g))).

(** [ORDER BY total_value DESC] *)
Definition highest_value_first (a b : SupplierStat.row) : bool :=
  sql_leb (SupplierStat.total_value b) (SupplierStat.total_value a).

(** [SELECT s.name, COUNT(i.id) as imports_count,
            SUM(i.total_amount) as total_value
     FROM suppliers s LEFT JOIN imports i ON s.id = i.supplier_id
     GROUP BY s.id, s.name ORDER BY total_value DESC LIMIT 5] *)
Definition select_top_suppliers (d : database) : list SupplierStat.row :=
  firstn 5
    (order_by highest_value_first
       (map supplier_stat
          (group_by supplier_key_eqb supplier_key
             (left_join (suppliers d) (imports d)
                (fun s i => Suppliers.id s =? Imports.supplier_id i))))).

(** ** Middleware and handlers *)

Local Open Scope async_scope.

(** [authorize(roles)] of [middleware/auth.js], in front of [next]. *)
Definition authorize (roles : list string) (user : option Users.row)
  (next : Users.row -> handler) : handler :=
  match user with
  | None => fun w => (json 401 (PError "Usuario no autenticado"), w)
  | Some u =>
      if negb (List.length roles =? 0)%nat
         && negb (existsb (String.eqb (Users.role u)) roles)
      then fun w => (json 403 (PError "Permisos insuficientes"), w)
      else next u
  end.

Definition is_admin (u : Users.row) : bool := String.eqb (Users.role u) "admin".

(** A query value is used when it is truthy: present and not empty. *)
Definition truthy (s : option string) : option string :=
  match s with
  | Some v => if String.eqb v "" then None else Some v
  | None => None
  end.

Definition owned_by (u : Users.row) (v : import_view) : bool :=
  Imports.user_id (view_import v) =? Users.id u.

(** The conditions the list handler appends to [WHERE 1=1]. *)
Definition list_conditions (user : Users.row) (status : option string)
  (supplier_id : option param) : list (import_view -> bool) :=
  (if is_admin user then [] else [owned_by user])
  ++ match truthy status with
     | Some s => [fun v => String.eqb (Imports.status (view_import v)) s]
     | None => []
     end
  ++ match supplier_id with
     | Some p => [fun v => param_eqb p (Imports.supplier_id (view_import v))]
     | None => []
     end.

(** [GET /api/imports] *)
Definition getImports (user : Users.row) (status : option string)
  (supplier_id : option param) : handler :=
  try_catch
    (rows <- db_query (select_imports (list_conditions user status supplier_id)) ;;
     ret (json 200 (PImports rows)))
    internal_error.

Definition detail_conditions (user : Users.row) (id : param)
  : list (import_view -> bool) :=
  [fun v => param_eqb id (Imports.id (view_import v))]
  ++ (if is_admin user then [] else [owned_by user]).

(** [GET /api/imports/:id] *)
Definition getImport (user : Users.row) (id : param) : handler :=
  try_catch
    (rows <- db_query (select_import (detail_conditions user id)) ;;
     match rows with
     | [] => ret not_found
     | first :: _ =>
         items <- db_query (select_items id) ;;
         ret (json 200 (PImport first items))
     end)
    internal_error.

(** The accumulation of the create handler:
    [let totalAmount = 0;
     for (const item of items) totalAmount += item.quantity * item.unit_price] *)
Definition line_total (it : Body.item) : number :=
  Num.mul (Num.of_Z (Body.quantity it)) (Body.unit_price it).

Definition totalAmount (items : list Body.item) : number :=
  fold_left (fun total it => Num.add total (line_total it)) items Num.zero.

(** The body of the loop over the items: [totalPrice] is the line total,
    and the row is inserted under the identifier of the new header. *)
Definition insert_line (e : env) (import : Z) (it : Body.item) : async unit :=
  db_run (insert_item e import (Body.product_id it) (Body.quantity it)
            (Body.unit_price it) (line_total it)).

(** [POST /api/imports] *)
Definition postImport (e : env) (user : Users.row) (b : Body.import) : handler :=
  try_catch
    (match validate b with
     | Some label => ret (json 400 (PInvalid label))
     | None =>
         let total := totalAmount (Body.items b) in
         let importCode := generateImportCode e in
         importResult <-
           db_run (insert_import e importCode (Users.id user)
                     (Body.supplier_id b) total (Body.import_date b)
                     (Body.estimated_arrival b) (Body.notes b)) ;;
         for_each (Body.items b) (insert_line e importResult) ;;;
         newImport <- db_query (select_created importResult) ;;
         ret (json 201 (PCreated "Importación creada exitosamente"
                          (hd_error newImport)))
     end)
    internal_error.

Definition validStatuses : list string :=
  ["pending"; "processing"; "shipped"; "in_transit"; "customs"; "delivered";
   "cancelled"].

(** [validStatuses.includes(status)]; an absent status is in no list. *)
Definition includes (l : list string) (status : option string) : bool :=
  match status with
  | Some s => existsb (String.eqb s) l
  | None => false
  end.

(** The handler behind [PUT /api/imports/:id/status]; the body carries an
    optional [status] and an optional [tracking_number].  A status that
    passes the [includes] check is a text, the one bound to the [UPDATE];
    [tracking_number || null] is bound next to it. *)
Definition putStatus (e : env) (id : param) (status tracking_number : option string)
  : handler :=
  try_catch
    (match status with
     | Some s =>
         if negb (includes validStatuses status)
         then ret (json 400 (PError "Estado inválido"))
         else
           db_run (update_status e s (truthy tracking_number) id) ;;;
           updatedImport <- db_query (select_by_id id) ;;
           match updatedImport with
           | [] => ret not_found
           | first :: _ =>
               ret (json 200 (PUpdated "Estado actualizado exitosamente" first))
           end
     | None => ret (json 400 (PError "Estado inválido"))
     end)
    internal_error.

(** [PUT /api/imports/:id/status], behind [authorize(['admin'])]. *)
Definition putImportStatus (e : env) (user : option Users.row) (id : param)
  (status tracking_number : option string) : handler :=
  authorize ["admin"] user (fun _ => putStatus e id status tracking_number).

(** [GET /api/imports/stats/dashboard]; [since] is the value of
    [date('now', '-12 months')]. *)
Definition getDashboard (since : string) : handler :=
  try_catch
    (statusStats <- db_query select_status_stats ;;
     monthlyStats <- db_query (select_monthly_stats since) ;;
     topSuppliers <- db_query select_top_suppliers ;;
     ret (json 200 (PStats statusStats monthlyStats topSuppliers)))
    internal_error.

Local Close Scope async_scope.

(** ** Authentication: [authenticateToken] of [middleware/auth.js] *)

(** [s.split(sep)] for a one-character separator. *)
Fixpoint split (sep : ascii) (s : string) : list string :=
  match s with
  | EmptyString => [EmptyString]
  | String c r =>
      if Ascii.eqb c sep then EmptyString :: split sep r
      else match split sep r with
           | h :: t => String c h :: t
           | [] => [String c EmptyString]
           end
  end.

(** [authHeader && authHeader.split(' ')[1]], when it is truthy: the text
    between the first and the second space of the header, unless there is
    none or it is empty. *)
Definition token_of (authorization : option string) : option string :=
  match authorization with
  | Some header =>
      if String.eqb header "" then None
      else truthy (nth_error (split " " header) 1)
  | None => None
  end.

(** [SELECT id, username, email, role FROM users WHERE id = ?] *)
Definition select_user (id : Z) (d : database) : list Users.row :=
  where_all [fun u => Users.id u =? id] (users d).

Definition invalid_token : response := json 403 (PError "Token inválido").

Section Authentication.

(** [jwt.verify(token, process.env.JWT_SECRET)]: the [userId] of the
    payload of a token the secret verifies, [None] when verification
    throws. *)
Variable jwt_verify : string -> option Z.

(** [authenticateToken], in front of [next]. *)
Definition authenticateToken (authorization : option string)
  (next : Users.row -> handler) : handler :=
  match token_of authorization with
  | None => fun w => (json 401 (PError "Token de acceso requerido"), w)
  | Some token =>
      match jwt_verify token with
      | None => fun w => (invalid_token, w)
      | Some userId =>
          fun w =>
            match db_query (select_user userId) w with
            | (Resolved [], w') => (invalid_token, w')
            | (Resolved (user :: _), w') => next user w'
            | (Rejected, w') => (invalid_token, w')
            end
      end
  end.

(** The routes of the service, as [app.get], [app.post] and [app.put]
    register them. *)
Definition route_getImports (authorization : option string)
  (status : option string) (supplier_id : option param) : handler :=
  authenticateToken authorization (fun u => getImports u status supplier_id).

Definition route_getImport (authorization : option string) (id : param)
  : handler :=
  authenticateToken authorization (fun u => getImport u id).

Definition route_postImport (e : env) (authorization : option string)
  (b : Body.import) : handler :=
  authenticateToken authorization (fun u => postImport e u b).

Definition route_putImportStatus (e : env) (authorization : option string)
  (id : param) (status tracking_number : option string) : handler :=
  authenticateToken authorization
    (fun u => putImportStatus e (Some u) id status tracking_number).


End Authentication.

(** ** Notions used to state the properties *)

(** The columns a status update leaves alone. *)
Definition same_frame (old new : Imports.row) : Prop :=
  Imports.id new = Imports.id old
  /\ Imports.import_code new = Imports.import_code old
  /\ Imports.user_id new = Imports.user_id old
  /\ Imports.supplier_id new = Imports.supplier_id old
  /\ Imports.total_amount new = Imports.total_amount old
  /\ Imports.import_date new = Imports.import_date old
  /\ Imports.estimated_arrival new = Imports.estimated_arrival old
  /\ Imports.notes new = Imports.notes old
  /\ Imports.created_at new = Imports.created_at old.

(** The item row the create handler writes for a line of the request. *)
Definition item_row_of (e : env) (import : Z) (it : Body.item) (r : Items.row)
  : Prop :=
  Items.import_id r = import
  /\ Items.product_id r = Body.product_id it
  /\ Items.quantity r = Body.quantity it
  /\ Items.unit_price r = Body.unit_price it
  /\ Items.total_price r = line_total it
  /\ Items.created_at r = current_timestamp e.

(** The header row the create handler writes. *)
Definition header_row (e : env) (u : Users.row) (b : Body.import) (d : database)
  : Imports.row :=
  Imports.mk (next_rowid (imports_seq d) (map Imports.id (imports d)))
    (generateImportCode e) (Users.id u) (Body.supplier_id b) "pending"
    (totalAmount (Body.items b)) (Body.import_date b)
    (Body.estimated_arrival b) None (Body.notes b)
    (current_timestamp e) (current_timestamp e).

(** [d'] is [d] with the item rows [rows] appended. *)
Definition items_added (d d' : database) (rows : list Items.row) : Prop :=
  users d' = users d /\ suppliers d' = suppliers d
  /\ products d' = products d /\ imports d' = imports d
  /\ import_items d' = import_items d ++ rows
  /\ imports_seq d' = imports_seq d /\ foreign_keys d' = foreign_keys d.

(** What a create request with a valid body leaves behind. *)
Definition header_added (e : env) (u : Users.row) (b : Body.import)
  (d d' : database) : Prop :=
  code_taken (generateImportCode e) d = false
  /\ (foreign_keys d = true ->
      has_id Suppliers.id (suppliers d) (Body.supplier_id b) = true)
  /\ users d' = users d /\ suppliers d' = suppliers d
  /\ products d' = products d
  /\ imports d' = imports d ++ [header_row e u b d].

Definition created (e : env) (u : Users.row) (b : Body.import)
  (d : database) (r : response) : Prop :=
  exists sup,
    r = json 201 (PCreated "Importación creada exitosamente"
                    (Some (header_row e u b d, sup))).





(** An item the schema accepts. *)
Definition valid_item (it : Body.item) : bool :=
  positive_integer (Body.product_id it)
  && positive_integer (Body.quantity it)
  && positive_number (Body.unit_price it).

(** The database a status update leaves when its [UPDATE] has run. *)
Definition status_updated (e : env) (s : string) (tracking : option string)
  (id : param) (d : database) : database :=
  mkDb (users d) (suppliers d) (products d)
    (updated_imports e s tracking id (imports d))
    (import_items d) (imports_seq d) (import_items_seq d) (foreign_keys d).

(** The orders the list shows to [u] under the given filters. *)
Definition listed_for (u : Users.row) (status : option string)
  (supplier_id : option param) (i : Imports.row) : bool :=
  (is_admin u || (Imports.user_id i =? Users.id u))
  && match truthy status with
     | Some s => String.eqb (Imports.status i) s
     | None => true
     end
  && match supplier_id with
     | Some p => param_eqb p (Imports.supplier_id i)
     | None => true
     end.

(** Newer orders first. *)
Definition newer_first (a b : Imports.row) : Prop :=
  String.leb (Imports.created_at b) (Imports.created_at a) = true.

(** A joined row carries the display fields of the row it references, or
    NULL when no row has the referenced identifier. *)
Definition joined_on {B : Type} (id_of : B -> Z) (table : list B)
  (ref : Z) (o : option B) : Prop :=
  match o with
  | Some y => In y table /\ id_of y = ref
  | None => has_id id_of table ref = false
  end.



(** The value of an upper-case base-36 digit or numeral. *)
Definition value36_upper (c : ascii) : Z :=
  let n := Z.of_nat (nat_of_ascii c) in
  if n <? 58 then n - 48 else n - 55.

Fixpoint parse36_upper_from (acc : Z) (s : string) : Z :=
  match s with
  | EmptyString => acc
  | String c r => parse36_upper_from (36 * acc + value36_upper c) r
  end.

(** No character of the text is [c]. *)
Fixpoint without (c : ascii) (s : string) : Prop :=
  match s with
  | EmptyString => True
  | String x r => x <> c /\ without c r
  end.

(** ** Sample data

    The rows the initialisation script inserts (a third account stands for
    a second importer), and requests used to run the handlers. *)

Definition admin : Users.row := Users.mk 1 "admin" "admin".
Definition importer1 : Users.row := Users.mk 2 "importer1" "user".
Definition importer2 : Users.row := Users.mk 3 "importer2" "user".

Definition sample_db : database :=
  mkDb [admin; importer1; importer2]
    [Suppliers.mk 1 "Tech Supplies China" "China";
     Suppliers.mk 2 "European Electronics" "Alemania";
     Suppliers.mk 3 "Global Components" "Taiwan"]
    [Products.mk 1 "Smartphone XYZ" (Some "Smartphone de alta gama");
     Products.mk 2 "Laptop ABC" (Some "Laptop profesional");
     Products.mk 3 "Tablet DEF" (Some "Tablet para uso general");
     Products.mk 4 "Auriculares GHI" (Some "Auriculares inalámbricos")]
    [] [] 0 0 false.

Definition sample_env : env :=
  mkEnv 1700000000000 "0.4fzyo82mvyr" "2024-01-15 10:00:00".

Definition later_env : env :=
  mkEnv 1700000360000 "0.i" "2024-01-15 10:06:00".

(** Two lines: 2 at 10.00 and 1 at 5.00. *)
Definition sample_body : Body.import :=
  Body.mk 1 1705276800000 None None
    [Body.mkItem 1 2 (Num.of_cents 1000); Body.mkItem 4 1 (Num.of_cents 500)].

(** The database after [importer1] has created [sample_body]. *)
Definition sample_db1 : database :=
  db (snd (postImport sample_env importer1 sample_body (mkWorld sample_db []))).

(** A request given as decimal lines: quantity and unit price in
    hundredths, the price being the number the decimal literal denotes. *)
Definition decimal_item (line : Z * Z) : Body.item :=
  Body.mkItem 1 (fst line) (Num.of_cents (snd line)).

Definition decimal_body (lines : list (Z * Z)) : Body.import :=
  Body.mk 1 1705276800000 None None (map decimal_item lines).

(** The exact total of decimal lines, in hundredths. *)
Definition exact_total_cents (lines : list (Z * Z)) : Z :=
  fold_right (fun line acc => fst line * snd line + acc) 0 lines.


(** Three lines of 3 at 19.99. *)
Definition even_lines : list (Z * Z) := [(3, 1999); (3, 1999); (3, 1999)].


(** A verifier for the sample accounts: one token per account, and one
    whose user is not stored. *)
Definition sample_jwt (token : string) : option Z :=
  if String.eqb token "token-admin" then Some 1
  else if String.eqb token "token-importer1" then Some 2
  else if String.eqb token "token-importer2" then Some 3
  else if String.eqb token "token-ghost" then Some 99
  else None.

(** * Properties *)

(** ** Lists and the relational operators *)

Lemma where_all_In {A : Type} (conds : list (A -> bool)) (l : list A) (x : A) :
  In x (where_all conds l) <->
  In x l /\ forall c, In c conds -> c x = true.
Proof.
  unfold where_all. rewrite filter_In, forallb_forall. tauto.
Qed.

Lemma where_all_app {A : Type} (conds : list (A -> bool)) (l1 l2 : list A) :
  where_all conds (l1 ++ l2) = where_all conds l1 ++ where_all conds l2.
Proof. unfold where_all. apply filter_app. Qed.

Lemma where_all_none {A : Type} (conds : list (A -> bool)) (l : list A) :
  (forall x, In x l -> exists c, In c conds /\ c x = false) ->
  where_all conds l = [].
Proof.
  intros H. destruct (where_all conds l) as [|x r] eqn:E; [reflexivity|].
  assert (Hx : In x (where_all conds l)) by (rewrite E; left; reflexivity).
  apply where_all_In in Hx. destruct Hx as [Hin Hall].
  destruct (H x Hin) as (c & Hc & Hfalse).
  rewrite (Hall c Hc) in Hfalse. discriminate.
Qed.

Lemma left_join_fst {A B : Type} (l : list A) (r : list B) on (v : A * option B) :
  In v (left_join l r on) -> In (fst v) l.
Proof.
  unfold left_join. rewrite in_flat_map. intros (x & Hx & Hv).
  destruct (filter (on x) r) as [|y ms].
  - destruct Hv as [<-|[]]. exact Hx.
  - apply in_map_iff in Hv. destruct Hv as (z & <- & _). exact Hx.
Qed.

Lemma left_join_covers {A B : Type} (l : list A) (r : list B) on (x : A) :
  In x l -> exists o, In (x, o) (left_join l r on).
Proof.
  intros Hx. unfold left_join.
  destruct (filter (on x) r) as [|y ms] eqn:E.
  - exists None. apply in_flat_map. exists x. rewrite E. split; [exact Hx|now left].
  - exists (Some y). apply in_flat_map. exists x. rewrite E.
    split; [exact Hx|]. left. reflexivity.
Qed.

Lemma left_join_app {A B : Type} (l1 l2 : list A) (r : list B) on :
  left_join (l1 ++ l2) r on = left_join l1 r on ++ left_join l2 r on.
Proof. unfold left_join. apply flat_map_app. Qed.

Lemma insert_sorted_perm {A : Type} (leb : A -> A -> bool) x l :
  Permutation (x :: l) (insert_sorted leb x l).
Proof.
  induction l as [|y r IH]; simpl.
  - apply Permutation_refl.
  - destruct (leb x y).
    + apply Permutation_refl.
    + eapply perm_trans; [apply perm_swap|]. apply perm_skip. exact IH.
Qed.

Lemma order_by_perm {A : Type} (leb : A -> A -> bool) l :
  Permutation l (order_by leb l).
Proof.
  induction l as [|x r IH]; simpl.
  - apply perm_nil.
  - eapply perm_trans; [apply perm_skip; exact IH|]. apply insert_sorted_perm.
Qed.

Lemma order_by_In {A : Type} (leb : A -> A -> bool) l x :
  In x (order_by leb l) <-> In x l.
Proof.
  split; intros H.
  - eapply Permutation_in; [apply Permutation_sym, order_by_perm|exact H].
  - eapply Permutation_in; [apply order_by_perm|exact H].
Qed.


(** ** Status update *)

Lemma includes_validStatuses (status : option string) :
  includes validStatuses status = true <->
  exists s, status = Some s /\ In s validStatuses.
Proof.
  unfold includes. destruct status as [s|].
  - rewrite existsb_exists. split.
    + intros (x & Hx & E). apply String.eqb_eq in E. subst x. eauto.
    + intros (s' & [= <-] & Hin). exists s. split; [exact Hin|apply String.eqb_refl].
  - split; [discriminate|]. intros (s & E & _). discriminate.
Qed.

Lemma updated_imports_unmatched e s t id l :
  (forall r, In r l -> param_eqb id (Imports.id r) = false) ->
  updated_imports e s t id l = l.
Proof.
  induction l as [|r l IH]; simpl; intros H; [reflexivity|].
  rewrite (H r (or_introl eq_refl)). f_equal. apply IH.
  intros r' Hr'. apply H. now right.
Qed.

Lemma select_by_id_updated e s t id d :
  select_by_id id
    (mkDb (users d) (suppliers d) (products d)
       (updated_imports e s t id (imports d)) (import_items d)
       (imports_seq d) (import_items_seq d) (foreign_keys d))
  = map (set_status e s t) (select_by_id id d).
Proof.
  unfold select_by_id, where_all, updated_imports. simpl.
  induction (imports d) as [|r l IH]; simpl; [reflexivity|].
  destruct (param_eqb id (Imports.id r)) eqn:E; simpl; rewrite ?E; simpl.
  - rewrite IH. reflexivity.
  - exact IH.
Qed.

(** The handler on a world whose storage calls all resolve. *)
Lemma putStatus_no_fault e id s tracking d :
  In s validStatuses ->
  putStatus e id (Some s) tracking (mkWorld d []) =
  (match select_by_id id d with
   | [] => not_found
   | first :: _ =>
       json 200 (PUpdated "Estado actualizado exitosamente"
                   (set_status e s (truthy tracking) first))
   end,
   mkWorld (mkDb (users d) (suppliers d) (products d)
              (updated_imports e s (truthy tracking) id (imports d))
              (import_items d) (imports_seq d) (import_items_seq d)
              (foreign_keys d)) []).
Proof.
  intros Hs.
  assert (Hinc : includes validStatuses (Some s) = true)
    by (apply includes_validStatuses; eauto).
  unfold putStatus, try_catch, bind, db_run, db_query, ret.
  rewrite Hinc. cbn [negb faults next_fault db update_status].
  rewrite select_by_id_updated.
  destruct (select_by_id id d); reflexivity.
Qed.

Lemma putStatus_invalid e id status tracking w :
  includes validStatuses status = false ->
  putStatus e id status tracking w = (json 400 (PError "Estado inválido"), w).
Proof.
  intros H. unfold putStatus, try_catch, ret. destruct status as [s|].
  - rewrite H. reflexivity.
  - reflexivity.
Qed.

Lemma authorize_admin roles u next :
  existsb (String.eqb (Users.role u)) roles = true ->
  authorize roles (Some u) next = next u.
Proof.
  intros H. unfold authorize. rewrite H.
  rewrite andb_false_r. reflexivity.
Qed.

Lemma putImportStatus_admin e u id status tracking :
  is_admin u = true ->
  putImportStatus e (Some u) id status tracking = putStatus e id status tracking.
Proof.
  intros H. unfold putImportStatus. apply authorize_admin.
  simpl. unfold is_admin in H. rewrite H. reflexivity.
Qed.

Lemma select_by_id_nonempty id d r :
  In r (imports d) -> param_eqb id (Imports.id r) = true ->
  select_by_id id d <> [].
Proof.
  intros Hin Hid E.
  assert (H : In r (select_by_id id d)).
  { apply where_all_In. split; [exact Hin|].
    intros c [<-|[]]. exact Hid. }
  rewrite E in H. destruct H.
Qed.


(** C10. An administrator's update with one of the seven labels and an
    identifier that matches no stored order is answered with the 404
    not-found response, and the database is unchanged: the [UPDATE] that
    runs before the existence check matches no row. *)
Theorem putImportStatus_unknown_id e u id status tracking d :
  is_admin u = true ->
  includes validStatuses status = true ->
  (forall r, In r (imports d) -> param_eqb id (Imports.id r) = false) ->
  putImportStatus e (Some u) id status tracking (mkWorld d []) =
  (not_found, mkWorld d []).
Proof.
  intros Hadmin Hinc Hnone.
  rewrite (putImportStatus_admin _ _ _ _ _ Hadmin).
  apply includes_validStatuses in Hinc. destruct Hinc as (s & -> & Hs).
  rewrite (putStatus_no_fault _ _ _ _ _ Hs).
  rewrite (updated_imports_unmatched _ _ _ _ _ Hnone).
  assert (E : select_by_id id d = []).
  { apply where_all_none. intros r Hr. eexists. split; [left; reflexivity|].
    apply Hnone. exact Hr. }
  rewrite E. destruct d; reflexivity.
Qed.

Lemma same_frame_refl r : same_frame r r.
Proof. repeat split. Qed.

Lemma putStatus_outcome e id status tracking w r w' :
  putStatus e id status tracking w = (r, w') ->
  status_code r = 200 ->
  exists s, status = Some s /\ In s validStatuses
    /\ db w' = mkDb (users (db w)) (suppliers (db w)) (products (db w))
                 (updated_imports e s (truthy tracking) id (imports (db w)))
                 (import_items (db w)) (imports_seq (db w))
                 (import_items_seq (db w)) (foreign_keys (db w)).
Proof.
  unfold putStatus, try_catch, bind, db_run, db_query, ret.
  destruct status as [s|]; [|intros [= <- <-]; discriminate].
  destruct (includes validStatuses (Some s)) eqn:Hinc;
    [|intros [= <- <-]; discriminate].
  apply includes_validStatuses in Hinc. destruct Hinc as (s' & [= <-] & Hs).
  cbn [negb]. destruct w as [d fs]. cbn [faults db].
  destruct (next_fault fs) as [f1 fs1]. destruct f1;
    [intros [= <- <-]; discriminate|].
  cbn [update_status faults db].
  destruct (next_fault fs1) as [f2 fs2]. destruct f2;
    [intros [= <- <-]; discriminate|].
  intros H Hcode. exists s. split; [reflexivity|]. split; [exact Hs|].
  cbn [db] in H.
  match type of H with
  | context [match ?l with [] => _ | _ :: _ => _ end] => destruct l
  end; injection H as <- <-; reflexivity.
Qed.

(** C6. A status update answered with 200 leaves the other tables, the
    item rows included, and every other order untouched, and on the
    addressed order changes only [status], [tracking_number] and
    [updated_at]: [id], [import_code], [user_id], [supplier_id],
    [total_amount], [import_date], [estimated_arrival], [notes] and
    [created_at] keep their values.  The tracking number stored is the one
    the request passes; a request that passes none (or an empty one) stores
    NULL, clearing what was there. *)
Theorem putImportStatus_frame e u id status tracking w r w' :
  putImportStatus e u id status tracking w = (r, w') ->
  status_code r = 200 ->
  users (db w') = users (db w)
  /\ suppliers (db w') = suppliers (db w)
  /\ products (db w') = products (db w)
  /\ import_items (db w') = import_items (db w)
  /\ Forall2 (fun old new =>
        same_frame old new
        /\ (param_eqb id (Imports.id old) = false -> new = old)
        /\ (param_eqb id (Imports.id old) = true ->
            Some (Imports.status new) = status
            /\ Imports.updated_at new = current_timestamp e
            /\ (forall t, tracking = Some t -> t <> ""%string ->
                Imports.tracking_number new = Some t)
            /\ (tracking = None \/ tracking = Some ""%string ->
                Imports.tracking_number new = None)))
       (imports (db w)) (imports (db w')).
Proof.
  intros Hrun Hcode.
  assert (Hput : putStatus e id status tracking w = (r, w')).
  { unfold putImportStatus, authorize in Hrun.
    destruct u as [u|]; [|injection Hrun as <- <-; discriminate].
    destruct (negb (List.length ["admin"%string] =? 0)%nat
              && negb (existsb (String.eqb (Users.role u)) ["admin"%string]));
      [injection Hrun as <- <-; discriminate|exact Hrun]. }
  destruct (putStatus_outcome _ _ _ _ _ _ _ Hput Hcode) as (s & -> & _ & Hdb).
  rewrite Hdb. cbn [users suppliers products import_items imports].
  repeat (split; [reflexivity|]).
  unfold updated_imports. clear Hdb Hput Hrun.
  induction (imports (db w)) as [|old l IH]; simpl;
    [constructor|constructor; [|exact IH]].
  destruct (param_eqb id (Imports.id old)) eqn:E.
  - split; [repeat split|]. split; [discriminate|]. intros _.
    cbn [set_status Imports.status Imports.updated_at Imports.tracking_number].
    repeat split.
    + intros t -> Ht. unfold truthy.
      destruct (String.eqb_spec t ""); [contradiction|reflexivity].
    + intros [->| ->]; reflexivity.
  - split; [apply same_frame_refl|]. split; [reflexivity|discriminate].
Qed.

(** ** Retrieval *)

Lemma imports_joined_import d v :
  In v (imports_joined d) -> In (view_import v) (imports d).
Proof.
  intros H. unfold imports_joined in H.
  apply left_join_fst in H. apply left_join_fst in H. exact H.
Qed.

Lemma getImport_hidden u id w :
  select_import (detail_conditions u id) (db w) = [] ->
  getImport u id w =
  (if fst (next_fault (faults w)) then internal_error else not_found,
   mkWorld (db w) (snd (next_fault (faults w)))).
Proof.
  intros E. unfold getImport, try_catch, bind, db_query, ret.
  destruct (next_fault (faults w)) as [f rest]. destruct f; cbn [fst snd].
  - reflexivity.
  - rewrite E. reflexivity.
Qed.

Lemma select_import_foreign u id d :
  is_admin u = false ->
  (forall r, In r (imports d) -> param_eqb id (Imports.id r) = true ->
             Imports.user_id r <> Users.id u) ->
  select_import (detail_conditions u id) d = [].
Proof.
  intros Hu Hown. unfold select_import, detail_conditions. rewrite Hu.
  apply where_all_none. intros v Hv.
  apply imports_joined_import in Hv.
  destruct (param_eqb id (Imports.id (view_import v))) eqn:E.
  - exists (owned_by u). split; [right; left; reflexivity|].
    unfold owned_by. apply Z.eqb_neq. apply Hown; assumption.
  - eexists. split; [left; reflexivity|]. exact E.
Qed.

(** C5. A caller who is not an administrator gets from the list only
    orders whose owner is that caller (and does get a list when the storage
    call resolves).  A detail request for an order that belongs to someone
    else has the very same outcome as one for an identifier that matches no
    order, the 404 not-found response when the storage call resolves, so
    the two cannot be told apart. *)
Theorem non_admin_sees_own_only u w :
  is_admin u = false ->
  (forall status supplier_id,
      (faults w = [] ->
       exists rows, fst (getImports u status supplier_id w)
                    = json 200 (PImports rows))
      /\ (forall rows, body (fst (getImports u status supplier_id w))
                       = PImports rows ->
                       Forall (fun v => Imports.user_id (view_import v)
                                        = Users.id u) rows))
  /\ (forall other unknown,
      (forall r, In r (imports (db w)) ->
                 param_eqb other (Imports.id r) = true ->
                 Imports.user_id r <> Users.id u) ->
      (forall r, In r (imports (db w)) ->
                 param_eqb unknown (Imports.id r) = false) ->
      getImport u other w = getImport u unknown w
      /\ (faults w = [] -> fst (getImport u other w) = not_found)).
Proof.
  intros Hu. split.
  - intros status supplier_id.
    unfold getImports, try_catch, bind, db_query, ret. split.
    + intros ->. cbn [next_fault]. eexists. reflexivity.
    + intros rows. destruct (next_fault (faults w)) as [f rest].
      destruct f; cbn [fst body internal_error]; [discriminate|].
      intros [= <-]. apply Forall_forall. intros v Hv.
      unfold select_imports in Hv. apply order_by_In in Hv.
      apply where_all_In in Hv. destruct Hv as [_ Hall].
      assert (Hown : owned_by u v = true).
      { apply Hall. unfold list_conditions. rewrite Hu.
        apply in_or_app. left. left. reflexivity. }
      unfold owned_by in Hown. apply Z.eqb_eq. exact Hown.
  - intros other unknown Hother Hunknown.
    rewrite (getImport_hidden u other w (select_import_foreign _ _ _ Hu Hother)).
    rewrite (getImport_hidden u unknown w).
    + split; [reflexivity|]. intros ->. reflexivity.
    + apply select_import_foreign; [exact Hu|].
      intros r Hr Hid. rewrite (Hunknown r Hr) in Hid. discriminate.
Qed.

(** ** Grouping *)

Section Grouping.

Context {A K : Type} (eqb : K -> K -> bool) (key : A -> K).
Hypothesis eqb_eq : forall a b, eqb a b = true <-> a = b.












End Grouping.

(** ** Dashboard *)





(** Rows that arrive grouped: when the rows of each key are contiguous,
    the groups are the blocks, in order. *)
Section Blocks.

Context {A K S : Type} (eqb : K -> K -> bool) (key : A -> K).
Context (block : S -> list A) (key_of : S -> K).
Hypothesis eqb_eq : forall a b, eqb a b = true <-> a = b.
Hypothesis block_nonempty : forall s, block s <> [].
Hypothesis block_key : forall s x, In x (block s) -> key x = key_of s.







End Blocks.

(** ** Ordering by a nullable number *)






Section StrongSorting.

Context {A : Type} (leb : A -> A -> bool) (P : A -> Prop).
Hypothesis leb_total : forall a b, leb a b = true \/ leb b a = true.
Hypothesis leb_trans : forall a b c, P a -> P b -> P c ->
  leb a b = true -> leb b c = true -> leb a c = true.

Lemma insert_sorted_strongly x l :
  P x -> Forall P l ->
  StronglySorted (fun a b => leb a b = true) l ->
  StronglySorted (fun a b => leb a b = true) (insert_sorted leb x l).
Proof.
  intros Hx. induction l as [|y r IH]; simpl; intros HP Hs.
  - constructor; constructor.
  - inversion HP as [|? ? Hy Hr]; subst.
    inversion Hs as [|? ? Hsr Hall]; subst.
    destruct (leb x y) eqn:E.
    + constructor; [exact Hs|]. constructor; [exact E|].
      rewrite Forall_forall in *. intros z Hz.
      apply (leb_trans x y z); auto.
    + constructor; [apply IH; assumption|].
      eapply Permutation_Forall; [apply insert_sorted_perm|].
      constructor; [|exact Hall].
      destruct (leb_total x y) as [H|H]; [congruence|exact H].
Qed.

Lemma order_by_strongly_sorted l :
  Forall P l -> StronglySorted (fun a b => leb a b = true) (order_by leb l).
Proof.
  induction l as [|x r IH]; simpl; intros HP.
  - constructor.
  - inversion HP; subst. apply insert_sorted_strongly; auto.
    eapply Permutation_Forall; [apply order_by_perm|assumption].
Qed.

End StrongSorting.







(** ** Order creation *)

Lemma items_added_refl d : items_added d d [].
Proof. unfold items_added. rewrite app_nil_r. repeat split. Qed.

Lemma items_added_trans d1 d2 d3 r rows :
  items_added d1 d2 [r] -> items_added d2 d3 rows ->
  items_added d1 d3 (r :: rows).
Proof.
  unfold items_added.
  intros (U1 & S1 & P1 & I1 & T1 & Q1 & F1) (U2 & S2 & P2 & I2 & T2 & Q2 & F2).
  rewrite U2, S2, P2, I2, T2, Q2, F2, T1, <- app_assoc. simpl.
  repeat split; assumption.
Qed.

Lemma insert_item_some e import it d d' :
  insert_item e import (Body.product_id it) (Body.quantity it)
    (Body.unit_price it) (line_total it) d = Some (tt, d') ->
  exists r, item_row_of e import it r /\ items_added d d' [r]
            /\ (foreign_keys d = true ->
                has_id Products.id (products d) (Body.product_id it) = true).
Proof.
  unfold insert_item.
  destruct (foreign_keys d
            && negb (has_id Imports.id (imports d) import
                     && has_id Products.id (products d) (Body.product_id it)))
    eqn:E; [discriminate|].
  intros [= <-].
  exists (Items.mk
            (next_rowid (import_items_seq d) (map Items.id (import_items d)))
            import (Body.product_id it) (Body.quantity it)
            (Body.unit_price it) (line_total it) (current_timestamp e)).
  split; [|split].
  - repeat split.
  - repeat split.
  - intros Hfk. rewrite Hfk in E. simpl in E.
    apply negb_false_iff, andb_true_iff in E. tauto.
Qed.

(** The loop over the items: it either writes a row for every item, or
    stops at the first rejected insertion, the rows written before it
    staying in the table. *)
Lemma for_each_insert_line e import items w res w' :
  for_each items (insert_line e import) w = (res, w') ->
  match res with
  | Resolved _ =>
      exists rows, Forall2 (item_row_of e import) items rows
                   /\ items_added (db w) (db w') rows
                   /\ (foreign_keys (db w) = true ->
                       Forall (fun it => has_id Products.id (products (db w))
                                           (Body.product_id it) = true) items)
  | Rejected =>
      exists pre it post rows,
        items = pre ++ it :: post
        /\ Forall2 (item_row_of e import) pre rows
        /\ items_added (db w) (db w') rows
  end.
Proof.
  revert w. induction items as [|it items IH]; intros w; simpl.
  - intros [= <- <-]. exists []. split; [constructor|].
    split; [apply items_added_refl|]. intros _. constructor.
  - unfold bind at 1. unfold insert_line at 1. unfold db_run.
    destruct (next_fault (faults w)) as [f rest]. destruct f.
    + intros [= <- <-]. exists [], it, items, []. cbn [db].
      split; [reflexivity|]. split; [constructor|apply items_added_refl].
    + destruct (insert_item e import (Body.product_id it) (Body.quantity it)
                  (Body.unit_price it) (line_total it) (db w))
        as [[[] d1]|] eqn:E.
      * destruct (insert_item_some _ _ _ _ _ E) as (r & Hr & Hadd & Hfk).
        intros Hrun. specialize (IH _ Hrun). cbn [db] in IH.
        destruct res as [[]|].
        -- destruct IH as (rows & Hrows & Hadd' & Hfk').
           exists (r :: rows). split; [constructor; assumption|].
           split; [eapply items_added_trans; eassumption|].
           intros F. constructor; [apply Hfk; exact F|].
           destruct Hadd as (_ & _ & HP & _ & _ & _ & HF).
           rewrite HP, HF in Hfk'. apply Hfk'. exact F.
        -- destruct IH as (pre & it' & post & rows & -> & Hrows & Hadd').
           exists (it :: pre), it', post, (r :: rows).
           split; [reflexivity|]. split; [constructor; assumption|].
           eapply items_added_trans; eassumption.
      * intros [= <- <-]. exists [], it, items, []. cbn [db].
        split; [reflexivity|]. split; [constructor|apply items_added_refl].
Qed.

Lemma fold_max_ge (l : list Z) x : In x l -> x <= fold_right Z.max 0 l.
Proof.
  induction l as [|y l IH]; simpl; [intros []|].
  intros [->|H]; [lia|]. specialize (IH H). lia.
Qed.

Lemma next_rowid_fresh seq (rows : list Imports.row) r :
  In r rows -> Imports.id r <> next_rowid seq (map Imports.id rows).
Proof.
  intros Hin. unfold next_rowid.
  pose proof (fold_max_ge (map Imports.id rows) (Imports.id r)
                (in_map Imports.id rows r Hin)).
  lia.
Qed.

Lemma select_created_new d d' row :
  imports d' = imports d ++ [row] ->
  Imports.id row = next_rowid (imports_seq d) (map Imports.id (imports d)) ->
  exists sup, hd_error (select_created (Imports.id row) d') = Some (row, sup).
Proof.
  intros Himp Hid. unfold select_created.
  rewrite Himp, left_join_app, where_all_app.
  rewrite where_all_none.
  - unfold left_join. simpl. rewrite app_nil_r.
    destruct (filter (fun s => Imports.supplier_id row =? Suppliers.id s)
                (suppliers d')) as [|s ms].
    + exists None. unfold where_all. simpl. rewrite Z.eqb_refl. reflexivity.
    + exists (Some s). unfold where_all. simpl. rewrite Z.eqb_refl. reflexivity.
  - intros v Hv. apply left_join_fst in Hv. eexists.
    split; [left; reflexivity|]. apply Z.eqb_neq. rewrite Hid.
    apply next_rowid_fresh. exact Hv.
Qed.

Lemma postImport_outcome e u b w r w' :
  validate b = None ->
  postImport e u b w = (r, w') ->
  (r = internal_error /\ db w' = db w)
  \/ (header_added e u b (db w) (db w')
      /\ ((r = internal_error
           /\ exists pre it post rows,
               Body.items b = pre ++ it :: post
               /\ Forall2 (item_row_of e (Imports.id (header_row e u b (db w))))
                    pre rows
               /\ import_items (db w') = import_items (db w) ++ rows)
          \/ (exists rows,
               Forall2 (item_row_of e (Imports.id (header_row e u b (db w))))
                 (Body.items b) rows
               /\ import_items (db w') = import_items (db w) ++ rows
               /\ (foreign_keys (db w) = true ->
                   Forall (fun it => has_id Products.id (products (db w))
                                       (Body.product_id it) = true)
                     (Body.items b))
               /\ (r = internal_error \/ created e u b (db w) r)))).
Proof.
  intros Hvalid. unfold postImport, try_catch. rewrite Hvalid.
  unfold bind at 1. unfold db_run at 1.
  destruct (next_fault (faults w)) as [f rest]. destruct f.
  { intros [= <- <-]. left. split; reflexivity. }
  unfold insert_import. fold (header_row e u b (db w)).
  destruct (code_taken (generateImportCode e) (db w)) eqn:Hcode.
  { intros [= <- <-]. left. split; reflexivity. }
  destruct (foreign_keys (db w)
            && negb (has_id Users.id (users (db w)) (Users.id u)
                     && has_id Suppliers.id (suppliers (db w))
                          (Body.supplier_id b))) eqn:Hfk.
  { intros [= <- <-]. left. split; reflexivity. }
  set (d1 := mkDb _ _ _ _ _ _ _ _).
  unfold bind at 1.
  destruct (for_each (Body.items b) _ (mkWorld d1 rest)) as [res w1] eqn:Hloop.
  apply for_each_insert_line in Hloop. cbn [db] in Hloop.
  assert (Hhead : forall d2 rows, items_added d1 d2 rows ->
            header_added e u b (db w) d2
            /\ import_items d2 = import_items (db w) ++ rows).
  { intros d2 rows (U & S & P & I & T & _ & _).
    unfold header_added. rewrite U, S, P, I, T. subst d1.
    cbn [users suppliers products imports import_items].
    split; [|reflexivity].
    split; [exact Hcode|]. split; [|repeat split].
    intros F. rewrite F in Hfk. simpl in Hfk.
    apply negb_false_iff, andb_true_iff in Hfk. tauto. }
  destruct res as [[]|].
  - destruct Hloop as (rows & Hrows & Hadd & Hprod).
    destruct (Hhead _ _ Hadd) as [Hh Hitems].
    unfold bind, db_query, ret.
    destruct (next_fault (faults w1)) as [f2 rest2].
    intros Hrun. right. split; [|right; exists rows].
    + destruct f2; injection Hrun as <- <-; exact Hh.
    + split; [exact Hrows|].
      split; [destruct f2; injection Hrun as <- <-; exact Hitems|].
      split; [exact Hprod|].
      destruct f2; injection Hrun as <- <-; [left; reflexivity|right].
      destruct Hh as (_ & _ & _ & _ & _ & Himp).
      destruct (select_created_new (db w) (db w1) _ Himp eq_refl) as (sup & E).
      exists sup. cbn [Imports.id header_row] in E.
      cbn [db]. rewrite E. reflexivity.
  - destruct Hloop as (pre & it & post & rows & Hsplit & Hrows & Hadd).
    destruct (Hhead _ _ Hadd) as [Hh Hitems].
    intros [= <- <-]. right. split; [exact Hh|]. left.
    split; [reflexivity|]. exists pre, it, post, rows. auto.
Qed.

Lemma postImport_invalid e u b w label :
  validate b = Some label ->
  postImport e u b w = (json 400 (PInvalid label), w).
Proof.
  intros H. unfold postImport, try_catch, ret. rewrite H. reflexivity.
Qed.

Lemma postImport_created e u b w r w' :
  postImport e u b w = (r, w') ->
  status_code r = 201 ->
  validate b = None
  /\ header_added e u b (db w) (db w')
  /\ created e u b (db w) r
  /\ exists rows,
       Forall2 (item_row_of e (Imports.id (header_row e u b (db w))))
         (Body.items b) rows
       /\ import_items (db w') = import_items (db w) ++ rows
       /\ (foreign_keys (db w) = true ->
           Forall (fun it => has_id Products.id (products (db w))
                               (Body.product_id it) = true) (Body.items b)).
Proof.
  intros Hrun Hcode.
  destruct (validate b) as [label|] eqn:Hvalid.
  { rewrite (postImport_invalid _ _ _ _ _ Hvalid) in Hrun.
    injection Hrun as <- <-. discriminate. }
  split; [reflexivity|].
  destruct (postImport_outcome _ _ _ _ _ _ Hvalid Hrun)
    as [[-> _]|[Hh [[-> _]|(rows & Hrows & Hitems & Hprod & [->|Hc])]]];
    try discriminate.
  split; [exact Hh|]. split; [exact Hc|]. exists rows. auto.
Qed.




(** The specification's example holds on doubles: three lines of 3 at
    19.99 accumulate to the double that 179.91 denotes. *)
Lemma totalAmount_even_lines :
  totalAmount (Body.items (decimal_body even_lines)) = Num.of_cents 17991
  /\ Num.to_cents (totalAmount (Body.items (decimal_body even_lines)))
     = Some (exact_total_cents even_lines).
Proof. split; vm_compute; reflexivity. Qed.

(** Everyday amounts drift too: 0.10 and 0.20 accumulate to a double that
    is not the one 0.30 denotes, though it is still 30 hundredths when
    rounded. *)
Lemma totalAmount_small_drift :
  totalAmount (Body.items (decimal_body [(1, 10); (1, 20)])) <> Num.of_cents 30
  /\ Num.to_cents (totalAmount (Body.items (decimal_body [(1, 10); (1, 20)])))
     = Some 30.
Proof. split; [vm_compute; discriminate|vm_compute; reflexivity]. Qed.


(** ** Persistence of a creation *)

Lemma select_imports_all d i :
  In i (imports d) -> In i (map view_import (select_imports [] d)).
Proof.
  intros Hi. unfold imports_joined, select_imports.
  destruct (left_join_covers (imports d) (suppliers d)
              (fun i s => Imports.supplier_id i =? Suppliers.id s) i Hi)
    as (s & Hs).
  destruct (left_join_covers _ (users d)
              (fun (v : Imports.row * option Suppliers.row) u =>
                 Imports.user_id (fst v) =? Users.id u) (i, s) Hs)
    as (o & Ho).
  apply in_map_iff. exists ((i, s), o). split; [reflexivity|].
  apply order_by_In. apply where_all_In. split; [exact Ho|].
  intros c [].
Qed.

Lemma left_join_head {A B : Type} (x : A) (l : list A) (r : list B) on :
  exists o rest, left_join (x :: l) r on = (x, o) :: rest.
Proof.
  unfold left_join. simpl. destruct (filter (on x) r) as [|y ms]; simpl; eauto.
Qed.

Lemma select_import_new a d d' header :
  is_admin a = true ->
  imports d' = imports d ++ [header] ->
  Imports.id header = next_rowid (imports_seq d) (map Imports.id (imports d)) ->
  exists v rest,
    select_import (detail_conditions a (PInt (Imports.id header))) d'
    = v :: rest
    /\ view_import v = header.
Proof.
  intros Ha Himp Hid. unfold select_import, detail_conditions, imports_joined.
  rewrite Ha, Himp, !left_join_app, where_all_app. cbn [app].
  rewrite where_all_none.
  - destruct (left_join_head header [] (suppliers d')
                (fun i s => Imports.supplier_id i =? Suppliers.id s))
      as (o & rest1 & ->).
    destruct (left_join_head (header, o) rest1 (users d')
                (fun (v : Imports.row * option Suppliers.row) u =>
                   Imports.user_id (fst v) =? Users.id u))
      as (o2 & rest2 & ->).
    unfold where_all. cbn [filter forallb param_eqb view_import fst].
    rewrite Z.eqb_refl. cbn [andb]. eexists. eexists.
    split; reflexivity.
  - intros v Hv. apply left_join_fst in Hv. apply left_join_fst in Hv.
    eexists. split; [left; reflexivity|]. cbn [param_eqb].
    apply Z.eqb_neq. intros E. symmetry in E. revert E. rewrite Hid.
    apply next_rowid_fresh. exact Hv.
Qed.

Lemma getImport_admin_new a d d' header :
  is_admin a = true ->
  imports d' = imports d ++ [header] ->
  Imports.id header = next_rowid (imports_seq d) (map Imports.id (imports d)) ->
  exists view items,
    fst (getImport a (PInt (Imports.id header)) (mkWorld d' []))
    = json 200 (PImport view items)
    /\ view_import view = header.
Proof.
  intros Ha Himp Hid.
  destruct (select_import_new a d d' header Ha Himp Hid) as (v & rest & E & Hv).
  unfold getImport, try_catch, bind, db_query, ret.
  cbn [faults next_fault db]. rewrite E. cbn [fst].
  eexists. eexists. split; [reflexivity|exact Hv].
Qed.

Lemma getImports_admin_all a d i :
  is_admin a = true -> In i (imports d) ->
  exists listed,
    fst (getImports a None None (mkWorld d [])) = json 200 (PImports listed)
    /\ In i (map view_import listed).
Proof.
  intros Ha Hi. unfold getImports, try_catch, bind, db_query, ret.
  cbn [faults next_fault db fst]. eexists. split; [reflexivity|].
  unfold list_conditions. rewrite Ha. cbn [truthy app].
  apply select_imports_all. exact Hi.
Qed.

(** C2, as the code has it.  A create request with a valid body ends in
    one of three ways.  Nothing is stored and the answer is the 500
    internal error (the header insertion was rejected).  Or the header row
    is stored with an item row for each item of a strict prefix of the
    request, the answer being the 500 internal error: the insertion of the
    next item was rejected, and what was written before stays.  Or the
    header row is stored with an item row for every item (the answer is 201
    unless the final read was rejected).  A stored header, also one left
    with part of its items, is in the list any administrator then reads and
    is what the detail read of its identifier returns. *)
Theorem postImport_persistence e u b w r w' :
  validate b = None ->
  postImport e u b w = (r, w') ->
  let header := header_row e u b (db w) in
  (r = internal_error /\ db w' = db w)
  \/ (imports (db w') = imports (db w) ++ [header]
      /\ (forall a, is_admin a = true ->
            (exists listed,
                fst (getImports a None None (mkWorld (db w') []))
                = json 200 (PImports listed)
                /\ In header (map view_import listed))
            /\ (exists view items,
                  fst (getImport a (PInt (Imports.id header))
                         (mkWorld (db w') []))
                  = json 200 (PImport view items)
                  /\ view_import view = header))
      /\ exists written rows,
           Forall2 (item_row_of e (Imports.id header)) written rows
           /\ import_items (db w') = import_items (db w) ++ rows
           /\ ((r = internal_error
                /\ exists it post, Body.items b = written ++ it :: post)
               \/ (written = Body.items b
                   /\ (r = internal_error \/ created e u b (db w) r)))).
Proof.
  intros Hvalid Hrun header.
  destruct (postImport_outcome _ _ _ _ _ _ Hvalid Hrun)
    as [H|[Hh Hcases]]; [left; exact H|right].
  destruct Hh as (_ & _ & _ & _ & _ & Himp).
  split; [exact Himp|]. split.
  - intros a Ha. split.
    + apply getImports_admin_all; [exact Ha|].
      rewrite Himp. apply in_or_app. right. left. reflexivity.
    + apply (getImport_admin_new a (db w)); [exact Ha|exact Himp|reflexivity].
  - destruct Hcases as [(-> & pre & it & post & rows & Hsplit & Hrows & Hitems)
                       |(rows & Hrows & Hitems & _ & Hr)].
    + exists pre, rows. split; [exact Hrows|]. split; [exact Hitems|].
      left. split; [reflexivity|]. exists it, post. exact Hsplit.
    + exists (Body.items b), rows. split; [exact Hrows|].
      split; [exact Hitems|]. right. split; [reflexivity|exact Hr].
Qed.

(** C2 as stated fails: the insertion of the second item is rejected, the
    request is answered with the 500 internal error, and the header stays
    stored with its first item only; the administrator's list shows it and
    the detail read returns it with that single item. *)
Lemma postImport_partial_order :
  let out := postImport sample_env importer1 sample_body
               (mkWorld sample_db [false; false; true]) in
  validate sample_body = None
  /\ fst out = internal_error
  /\ (exists header listed,
        imports (db (snd out)) = [header]
        /\ fst (getImports admin None None (mkWorld (db (snd out)) []))
           = json 200 (PImports listed)
        /\ map view_import listed = [header])
  /\ (exists view item,
        fst (getImport admin (PInt 1) (mkWorld (db (snd out)) []))
        = json 200 (PImport view [item])
        /\ List.length (Body.items sample_body) = 2%nat).
Proof.
  cbv zeta. split; [vm_compute; reflexivity|].
  split; [vm_compute; reflexivity|]. split.
  - eexists. eexists. split; [vm_compute; reflexivity|].
    split; vm_compute; reflexivity.
  - eexists. eexists. split; vm_compute; reflexivity.
Qed.

(** ** Import codes *)

Lemma value36_digit36 d : 0 <= d < 36 -> value36 (digit36 d) = d.
Proof.
  intros H. unfold value36, digit36.
  destruct (d <? 10) eqn:E.
  - apply Z.ltb_lt in E. rewrite nat_ascii_embedding by lia.
    rewrite Z2Nat.id by lia.
    destruct (48 + d <? 58) eqn:E2; [lia|]. apply Z.ltb_ge in E2. lia.
  - apply Z.ltb_ge in E. rewrite nat_ascii_embedding by lia.
    rewrite Z2Nat.id by lia.
    destruct (97 + (d - 10) <? 58) eqn:E2; [|lia]. apply Z.ltb_lt in E2. lia.
Qed.

Lemma parse36_from_app acc s t :
  parse36_from acc (s ++ t) = parse36_from (parse36_from acc s) t.
Proof.
  revert acc. induction s as [|c s IH]; intros acc; simpl; [reflexivity|].
  apply IH.
Qed.

Lemma toString36_fuel_parse fuel n :
  0 <= n < 36 ^ Z.of_nat fuel ->
  parseInt36 (toString36_fuel fuel n) = n.
Proof.
  revert n. induction fuel as [|f IH]; intros n Hn.
  - change (36 ^ Z.of_nat 0) with 1 in Hn.
    assert (n = 0) as -> by lia. reflexivity.
  - cbn [toString36_fuel]. destruct (n <? 36) eqn:E.
    + apply Z.ltb_lt in E. unfold parseInt36. cbn [parse36_from].
      rewrite value36_digit36 by lia. lia.
    + apply Z.ltb_ge in E. unfold parseInt36.
      rewrite parse36_from_app. fold (parseInt36 (toString36_fuel f (n / 36))).
      rewrite IH.
      * cbn [parse36_from].
        rewrite value36_digit36 by (apply Z.mod_pos_bound; lia).
        pose proof (Z.div_mod n 36 ltac:(lia)). lia.
      * split; [apply Z.div_pos; lia|].
        apply Z.div_lt_upper_bound; [lia|].
        rewrite Nat2Z.inj_succ, Z.pow_succ_r in Hn by lia. lia.
Qed.

(** The base-36 numeral of a non-negative integer reads back to it: the
    digit budget of [toString36] is never exhausted. *)
Lemma toString36_parse n : 0 <= n -> parseInt36 (toString36 n) = n.
Proof.
  intros Hn. unfold toString36. apply toString36_fuel_parse.
  split; [exact Hn|].
  rewrite Nat2Z.inj_succ, Z2Nat.id by apply Z.log2_nonneg.
  destruct (Z.eq_dec n 0) as [->|Hne]; [reflexivity|].
  pose proof (Z.log2_spec n ltac:(lia)) as [_ Hlt].
  eapply Z.lt_le_trans; [exact Hlt|].
  apply Z.pow_le_mono_l. lia.
Qed.

Lemma toUpperCase_app s t :
  toUpperCase (s ++ t) = (toUpperCase s ++ toUpperCase t)%string.
Proof.
  induction s as [|c s IH]; simpl; [reflexivity|]. rewrite IH. reflexivity.
Qed.

Lemma toUpperCase_length s : String.length (toUpperCase s) = String.length s.
Proof.
  induction s as [|c s IH]; simpl; [reflexivity|]. rewrite IH. reflexivity.
Qed.

Lemma substring_length_le n m s : (String.length (substring n m s) <= m)%nat.
Proof.
  revert n m. induction s as [|c s IH]; intros n m.
  - destruct n, m; simpl; lia.
  - destruct n as [|n].
    + destruct m as [|m]; simpl; [lia|]. specialize (IH 0%nat m). lia.
    + simpl. apply IH.
Qed.

Lemma generateImportCode_format e :
  exists random,
    generateImportCode e
    = ("IMP-" ++ toUpperCase (toString36 (date_now e)) ++ "-" ++ random)%string
    /\ random = toUpperCase (substring 2 5 (random_base36 e))
    /\ (String.length random <= 5)%nat.
Proof.
  eexists. split; [|split; [reflexivity|]].
  - unfold generateImportCode. cbv zeta.
    change ("IMP-" ++ toString36 (date_now e) ++ "-"
            ++ substring 2 5 (random_base36 e))%string
      with ("IMP-" ++ (toString36 (date_now e)
                       ++ ("-" ++ substring 2 5 (random_base36 e))))%string.
    rewrite !toUpperCase_app. reflexivity.
  - rewrite toUpperCase_length. apply substring_length_le.
Qed.



Lemma postImport_codes e u b w r w' :
  postImport e u b w = (r, w') ->
  imports (db w') = imports (db w)
  \/ (code_taken (generateImportCode e) (db w) = false
      /\ imports (db w') = imports (db w) ++ [header_row e u b (db w)]).
Proof.
  intros Hrun. destruct (validate b) as [label|] eqn:Hvalid.
  - rewrite (postImport_invalid _ _ _ _ _ Hvalid) in Hrun.
    injection Hrun as <- <-. left. reflexivity.
  - destruct (postImport_outcome _ _ _ _ _ _ Hvalid Hrun) as [[_ ->]|[Hh _]].
    + left. reflexivity.
    + right. destruct Hh as (Hc & _ & _ & _ & _ & Himp). auto.
Qed.



(** ** References to suppliers and products *)





(** * The theorems at work on the sample data *)


(** An administrator addresses order 7, which the sample database lacks. *)
Lemma putImportStatus_unknown_id_witness :
  (is_admin admin = true
   /\ includes validStatuses (Some "delivered") = true
   /\ forall r, In r (imports sample_db1) ->
                param_eqb (PInt 7) (Imports.id r) = false)
  /\ putImportStatus sample_env (Some admin) (PInt 7) (Some "delivered") None
       (mkWorld sample_db1 [])
     = (not_found, mkWorld sample_db1 []).
Proof.
  assert (H : forall r, In r (imports sample_db1) ->
                        param_eqb (PInt 7) (Imports.id r) = false).
  { intros r Hr. vm_compute in Hr. destruct Hr as [<-|[]]. reflexivity. }
  split.
  - split; [reflexivity|]. split; [reflexivity|exact H].
  - apply (putImportStatus_unknown_id sample_env admin (PInt 7)
             (Some "delivered") None sample_db1);
      [reflexivity|reflexivity|exact H].
Defined.

(** The sample order is set to [shipped] without a tracking number. *)
Lemma putImportStatus_frame_witness :
  let w := mkWorld sample_db1 [] in
  let out := putImportStatus sample_env (Some admin) (PInt 1) (Some "shipped")
               None w in
  status_code (fst out) = 200
  /\ users (db (snd out)) = users (db w)
  /\ suppliers (db (snd out)) = suppliers (db w)
  /\ products (db (snd out)) = products (db w)
  /\ import_items (db (snd out)) = import_items (db w)
  /\ Forall2 (fun old new =>
        same_frame old new
        /\ (param_eqb (PInt 1) (Imports.id old) = false -> new = old)
        /\ (param_eqb (PInt 1) (Imports.id old) = true ->
            Some (Imports.status new) = Some "shipped"%string
            /\ Imports.updated_at new = current_timestamp sample_env
            /\ (forall t, @None string = Some t -> t <> ""%string ->
                Imports.tracking_number new = Some t)
            /\ (@None string = None \/ @None string = Some ""%string ->
                Imports.tracking_number new = None)))
       (imports (db w)) (imports (db (snd out))).
Proof.
  cbv zeta. split; [vm_compute; reflexivity|].
  eapply (putImportStatus_frame sample_env (Some admin) (PInt 1)
            (Some "shipped") None (mkWorld sample_db1 [])).
  - apply surjective_pairing.
  - vm_compute. reflexivity.
Defined.

(** The second importer asks for the first importer's order and for order 7. *)
Lemma non_admin_sees_own_only_witness :
  is_admin importer2 = false
  /\ (forall r, In r (imports sample_db1) ->
                param_eqb (PInt 1) (Imports.id r) = true ->
                Imports.user_id r <> Users.id importer2)
  /\ (forall r, In r (imports sample_db1) ->
                param_eqb (PInt 7) (Imports.id r) = false)
  /\ getImport importer2 (PInt 1) (mkWorld sample_db1 [])
     = getImport importer2 (PInt 7) (mkWorld sample_db1 [])
  /\ fst (getImport importer2 (PInt 1) (mkWorld sample_db1 [])) = not_found
  /\ forall rows,
       body (fst (getImports importer2 None None (mkWorld sample_db1 [])))
       = PImports rows ->
       Forall (fun v => Imports.user_id (view_import v) = Users.id importer2)
         rows.
Proof.
  assert (H1 : forall r, In r (imports sample_db1) ->
                         param_eqb (PInt 1) (Imports.id r) = true ->
                         Imports.user_id r <> Users.id importer2).
  { intros r Hr _. vm_compute in Hr. destruct Hr as [<-|[]]. discriminate. }
  assert (H7 : forall r, In r (imports sample_db1) ->
                         param_eqb (PInt 7) (Imports.id r) = false).
  { intros r Hr. vm_compute in Hr. destruct Hr as [<-|[]]. reflexivity. }
  destruct (non_admin_sees_own_only importer2 (mkWorld sample_db1 []) eq_refl)
    as [Hlist Hdetail].
  destruct (Hdetail (PInt 1) (PInt 7) H1 H7) as [Hsame Hnot].
  split; [reflexivity|]. split; [exact H1|]. split; [exact H7|].
  split; [exact Hsame|]. split; [exact (Hnot eq_refl)|].
  exact (proj2 (Hlist None None)).
Defined.



(** The sample request with the insertion of its second item rejected. *)
Lemma postImport_persistence_witness :
  let w := mkWorld sample_db [false; false; true] in
  let out := postImport sample_env importer1 sample_body w in
  let header := header_row sample_env importer1 sample_body (db w) in
  validate sample_body = None
  /\ ((fst out = internal_error /\ db (snd out) = db w)
      \/ (imports (db (snd out)) = imports (db w) ++ [header]
          /\ (forall a, is_admin a = true ->
                (exists listed,
                    fst (getImports a None None (mkWorld (db (snd out)) []))
                    = json 200 (PImports listed)
                    /\ In header (map view_import listed))
                /\ (exists view items,
                      fst (getImport a (PInt (Imports.id header))
                             (mkWorld (db (snd out)) []))
                      = json 200 (PImport view items)
                      /\ view_import view = header))
          /\ exists written rows,
               Forall2 (item_row_of sample_env (Imports.id header)) written rows
               /\ import_items (db (snd out)) = import_items (db w) ++ rows
               /\ ((fst out = internal_error
                    /\ exists it post,
                         Body.items sample_body = written ++ it :: post)
                   \/ (written = Body.items sample_body
                       /\ (fst out = internal_error
                           \/ created sample_env importer1 sample_body (db w)
                                (fst out)))))).
Proof.
  cbv zeta. split; [vm_compute; reflexivity|].
  apply (postImport_persistence sample_env importer1 sample_body
           (mkWorld sample_db [false; false; true])).
  - vm_compute. reflexivity.
  - apply surjective_pairing.
Defined.



(** * Further properties of the service *)

(** ** Validation *)

Lemma validate_items_valid k items :
  validate_items k items = None <->
  Forall (fun it => valid_item it = true) items.
Proof.
  revert k. induction items as [|it items IH]; intros k; simpl.
  - split; [constructor|reflexivity].
  - rewrite Forall_cons_iff. unfold valid_item at 1.
    destruct (positive_integer (Body.product_id it)); simpl;
      [|split; [discriminate|intros [H _]; discriminate]].
    destruct (positive_integer (Body.quantity it)); simpl;
      [|split; [discriminate|intros [H _]; discriminate]].
    destruct (positive_number (Body.unit_price it)); simpl;
      [|split; [discriminate|intros [H _]; discriminate]].
    rewrite IH. tauto.
Qed.

Lemma positive_integer_spec z :
  positive_integer z = true <-> 0 < z <= 9007199254740991.
Proof.
  unfold positive_integer, Num.MAX_SAFE_INTEGER.
  rewrite andb_true_iff, Z.ltb_lt, Z.leb_le.
  change (2 ^ 53 - 1) with 9007199254740991. tauto.
Qed.


Lemma validate_items_ok b :
  validate b = None ->
  Body.items b <> [] /\ Forall (fun it => valid_item it = true) (Body.items b).
Proof.
  unfold validate.
  destruct (positive_integer (Body.supplier_id b)); [|discriminate].
  simpl. destruct (match Body.notes b with
                   | Some s => negb (valid_notes s)
                   | None => false
                   end); [discriminate|].
  destruct (validate_items 0 (Body.items b)) eqn:E; [discriminate|].
  apply validate_items_valid in E.
  destruct (Body.items b); simpl; [discriminate|].
  intros _. split; [discriminate|exact E].
Qed.

(** A create request with an empty item list, or with an item whose
    quantity or unit price is not positive, is answered with the 400
    validation error; no storage call is made and nothing is stored. *)
Theorem postImport_rejects_bad_items e u b w :
  Body.items b = []
  \/ Exists (fun it => Body.quantity it <= 0
                       \/ Num.ltb Num.zero (Body.unit_price it) = false)
       (Body.items b) ->
  exists label, postImport e u b w = (json 400 (PInvalid label), w).
Proof.
  intros Hbad. destruct (validate b) as [label|] eqn:E.
  - exists label. apply postImport_invalid. exact E.
  - exfalso. apply validate_items_ok in E. destruct E as [Hne Hall].
    destruct Hbad as [Hnil|Hex]; [contradiction|].
    apply Exists_exists in Hex. destruct Hex as (it & Hit & Hbad).
    rewrite Forall_forall in Hall. specialize (Hall it Hit).
    unfold valid_item in Hall. rewrite !andb_true_iff in Hall.
    destruct Hall as [[_ Hq] Hp].
    destruct Hbad as [Hq'|Hp'].
    + apply positive_integer_spec in Hq. lia.
    + unfold positive_number in Hp. rewrite !andb_true_iff in Hp.
      destruct Hp as [[_ Hp] _]. congruence.
Qed.

(** ** Authorization of the status update *)

Lemma putImportStatus_forbidden e user id status tracking w :
  (forall u, user = Some u -> is_admin u = false) ->
  putImportStatus e user id status tracking w =
  (match user with
   | Some _ => json 403 (PError "Permisos insuficientes")
   | None => json 401 (PError "Usuario no autenticado")
   end, w).
Proof.
  intros H. unfold putImportStatus, authorize. destruct user as [u|].
  - specialize (H u eq_refl). unfold is_admin in H. simpl.
    rewrite H. reflexivity.
  - reflexivity.
Qed.

(** ** The status update, call by call *)

Lemma putStatus_run e id s tracking d fs :
  In s validStatuses ->
  putStatus e id (Some s) tracking (mkWorld d fs) =
  (if fst (next_fault fs) then internal_error
   else if fst (next_fault (snd (next_fault fs))) then internal_error
   else match select_by_id id d with
        | [] => not_found
        | first :: _ =>
            json 200 (PUpdated "Estado actualizado exitosamente"
                        (set_status e s (truthy tracking) first))
        end,
   mkWorld (if fst (next_fault fs) then d
            else status_updated e s (truthy tracking) id d)
     (if fst (next_fault fs) then snd (next_fault fs)
      else snd (next_fault (snd (next_fault fs))))).
Proof.
  intros Hs.
  assert (Hinc : includes validStatuses (Some s) = true)
    by (apply includes_validStatuses; eauto).
  unfold putStatus, try_catch, bind, db_run, db_query, ret.
  rewrite Hinc. cbn [negb faults db].
  destruct (next_fault fs) as [f1 fs1]. cbn [fst snd].
  destruct f1; [reflexivity|].
  cbn [update_status faults db].
  destruct (next_fault fs1) as [f2 fs2]. cbn [fst snd].
  destruct f2; [reflexivity|].
  fold (status_updated e s (truthy tracking) id d).
  unfold status_updated. rewrite select_by_id_updated.
  destruct (select_by_id id d); reflexivity.
Qed.

(** A status update can be stored and still be answered with an error:
    when the [UPDATE] is served and the read that follows it is rejected,
    the answer is the 500 internal error and the addressed order carries
    the new status. *)
Theorem putImportStatus_readback_fault e a id s tracking d rest :
  is_admin a = true ->
  In s validStatuses ->
  putImportStatus e (Some a) id (Some s) tracking
    (mkWorld d (false :: true :: rest))
  = (internal_error,
     mkWorld (status_updated e s (truthy tracking) id d) rest)
  /\ forall r, In r (imports (status_updated e s (truthy tracking) id d)) ->
               param_eqb id (Imports.id r) = true -> Imports.status r = s.
Proof.
  intros Ha Hs. rewrite (putImportStatus_admin _ _ _ _ _ Ha).
  rewrite (putStatus_run _ _ _ _ _ _ Hs). split; [reflexivity|].
  intros r Hr Hid. cbn [status_updated imports] in Hr.
  unfold updated_imports in Hr. apply in_map_iff in Hr.
  destruct Hr as (r0 & <- & _).
  destruct (param_eqb id (Imports.id r0)) eqn:E; [reflexivity|].
  rewrite E in Hid. discriminate.
Qed.

Lemma updated_imports_twice e1 s1 t1 e2 s2 t2 id l :
  updated_imports e2 s2 t2 id (updated_imports e1 s1 t1 id l)
  = updated_imports e2 s2 t2 id l.
Proof.
  unfold updated_imports. rewrite map_map. apply map_ext. intros r.
  destruct (param_eqb id (Imports.id r)) eqn:E.
  - cbn [set_status Imports.id]. rewrite E. reflexivity.
  - rewrite E. reflexivity.
Qed.

(** The last status update wins: on a storage layer that serves its
    calls, two updates of the same identifier by an administrator leave
    the database, and give the answer, that the second alone would (apart
    from the time of the update, which is that of the second). *)
Theorem putImportStatus_last_wins e1 e2 a id s1 s2 t1 t2 d :
  is_admin a = true ->
  In s1 validStatuses -> In s2 validStatuses ->
  putImportStatus e2 (Some a) id (Some s2) t2
    (snd (putImportStatus e1 (Some a) id (Some s1) t1 (mkWorld d [])))
  = putImportStatus e2 (Some a) id (Some s2) t2 (mkWorld d []).
Proof.
  intros Ha H1 H2. rewrite !(putImportStatus_admin _ _ _ _ _ Ha).
  rewrite (putStatus_run _ _ _ _ _ _ H1). cbn [next_fault fst snd].
  rewrite !(putStatus_run _ _ _ _ _ _ H2). cbn [next_fault fst snd].
  unfold status_updated. cbn [users suppliers products imports
    import_items imports_seq import_items_seq foreign_keys].
  rewrite updated_imports_twice, select_by_id_updated.
  destruct (select_by_id id d) as [|first rest]; reflexivity.
Qed.

Lemma updated_imports_ids e s t id l :
  map Imports.id (updated_imports e s t id l) = map Imports.id l.
Proof.
  unfold updated_imports. rewrite map_map. apply map_ext. intros r.
  destruct (param_eqb id (Imports.id r)); reflexivity.
Qed.

Lemma putImportStatus_db e user id status tracking w :
  db (snd (putImportStatus e user id status tracking w)) = db w
  \/ exists s, status = Some s /\ In s validStatuses
       /\ db (snd (putImportStatus e user id status tracking w))
          = status_updated e s (truthy tracking) id (db w).
Proof.
  unfold putImportStatus, authorize. destruct user as [u|]; [|left; reflexivity].
  destruct (negb (List.length ["admin"%string] =? 0)%nat
            && negb (existsb (String.eqb (Users.role u)) ["admin"%string]));
    [left; reflexivity|].
  destruct (includes validStatuses status) eqn:Hinc.
  - apply includes_validStatuses in Hinc. destruct Hinc as (s & -> & Hs).
    destruct w as [d fs]. rewrite (putStatus_run _ _ _ _ _ _ Hs).
    cbn [snd db]. destruct (fst (next_fault fs)); [left; reflexivity|].
    right. exists s. auto.
  - rewrite (putStatus_invalid _ _ _ _ _ Hinc). left. reflexivity.
Qed.

(** ** Invariants of the stored orders *)

(** Order identifiers stay pairwise distinct: neither a creation, however
    it ends, nor a status update introduces a second row with an
    identifier already in use. *)
Theorem import_ids_stay_distinct w :
  NoDup (map Imports.id (imports (db w))) ->
  (forall e u b,
      NoDup (map Imports.id (imports (db (snd (postImport e u b w))))))
  /\ (forall e user id status tracking,
      NoDup (map Imports.id
               (imports (db (snd (putImportStatus e user id status tracking
                                    w)))))).
Proof.
  intros Hnd. split.
  - intros e u b.
    destruct (postImport_codes e u b w _ _ (surjective_pairing _))
      as [->|[_ ->]]; [exact Hnd|].
    rewrite map_app. simpl.
    apply NoDup_rev in Hnd. rewrite <- (rev_involutive (_ ++ [_])).
    apply NoDup_rev. rewrite rev_app_distr. simpl. constructor; [|exact Hnd].
    intros Hin. apply in_rev in Hin. apply in_map_iff in Hin.
    destruct Hin as (r & Hid & Hr).
    exact (next_rowid_fresh _ _ _ Hr Hid).
  - intros e user id status tracking.
    destruct (putImportStatus_db e user id status tracking w)
      as [->|(s & _ & _ & ->)]; [exact Hnd|].
    cbn [status_updated imports]. rewrite updated_imports_ids. exact Hnd.
Qed.

(** A new order starts pending: the header a creation answered with 201
    returns and stores belongs to the caller, has status [pending], no
    tracking number, both timestamps equal to the time of the insertion,
    the supplier, dates and notes of the request, and an identifier larger
    than that of every order stored before. *)
Theorem postImport_initial_state e u b w r w' :
  postImport e u b w = (r, w') ->
  status_code r = 201 ->
  exists row sup,
    r = json 201 (PCreated "Importación creada exitosamente" (Some (row, sup)))
    /\ In row (imports (db w'))
    /\ Imports.status row = "pending"%string
    /\ Imports.user_id row = Users.id u
    /\ Imports.tracking_number row = None
    /\ Imports.created_at row = current_timestamp e
    /\ Imports.updated_at row = current_timestamp e
    /\ Imports.supplier_id row = Body.supplier_id b
    /\ Imports.import_date row = Body.import_date b
    /\ Imports.estimated_arrival row = Body.estimated_arrival b
    /\ Imports.notes row = Body.notes b
    /\ forall old, In old (imports (db w)) -> Imports.id old < Imports.id row.
Proof.
  intros Hrun Hcode.
  destruct (postImport_created _ _ _ _ _ _ Hrun Hcode)
    as (_ & (_ & _ & _ & _ & _ & Himp) & (sup & ->) & _).
  exists (header_row e u b (db w)), sup.
  split; [reflexivity|]. split.
  { rewrite Himp. apply in_or_app. right. left. reflexivity. }
  repeat (split; [reflexivity|]).
  intros old Hold. cbn [header_row Imports.id]. unfold next_rowid.
  pose proof (fold_max_ge (map Imports.id (imports (db w))) (Imports.id old)
                (in_map Imports.id _ _ Hold)).
  lia.
Qed.

(** ** Answers that change nothing *)

Lemma status_updated_unmatched e s t id d :
  select_by_id id d = [] -> status_updated e s t id d = d.
Proof.
  intros E. unfold status_updated. rewrite updated_imports_unmatched.
  - destruct d; reflexivity.
  - intros r Hr. destruct (param_eqb id (Imports.id r)) eqn:Hid;
      [|reflexivity].
    exfalso. apply (select_by_id_nonempty id d r Hr Hid). exact E.
Qed.

(** Client errors leave the database as it was, whatever the storage
    layer does: a creation answered with 400 and a status update answered
    with 400, 401, 403 or 404 have changed no table. *)
Theorem client_errors_change_nothing w :
  (forall e u b,
      status_code (fst (postImport e u b w)) = 400 ->
      db (snd (postImport e u b w)) = db w)
  /\ (forall e user id status tracking,
      In (status_code (fst (putImportStatus e user id status tracking w)))
        [400; 401; 403; 404] ->
      db (snd (putImportStatus e user id status tracking w)) = db w).
Proof.
  split.
  - intros e u b Hcode. destruct (validate b) as [label|] eqn:Hvalid.
    + rewrite (postImport_invalid _ _ _ _ _ Hvalid). reflexivity.
    + destruct (postImport_outcome e u b w _ _ Hvalid (surjective_pairing _))
        as [[_ H]|[_ [[H _]|(rows & _ & _ & _ & [H|(sup & H)])]]];
        try exact H; rewrite H in Hcode; discriminate.
  - intros e user id status tracking.
    unfold putImportStatus, authorize. destruct user as [u|];
      [|reflexivity].
    destruct (negb (List.length ["admin"%string] =? 0)%nat
              && negb (existsb (String.eqb (Users.role u)) ["admin"%string]));
      [reflexivity|].
    destruct (includes validStatuses status) eqn:Hinc.
    + apply includes_validStatuses in Hinc. destruct Hinc as (s & -> & Hs).
      destruct w as [d fs]. rewrite (putStatus_run _ _ _ _ _ _ Hs).
      cbn [fst snd db]. destruct (fst (next_fault fs)); [reflexivity|].
      destruct (fst (next_fault (snd (next_fault fs)))).
      * cbn. intros H. repeat (destruct H as [H|H]; [discriminate|]).
        destruct H.
      * destruct (select_by_id id d) as [|first rest] eqn:E.
        -- intros _. apply status_updated_unmatched. exact E.
        -- cbn. intros H. repeat (destruct H as [H|H]; [discriminate|]).
           destruct H.
    + rewrite (putStatus_invalid _ _ _ _ _ Hinc). reflexivity.
Qed.

(** The three read handlers never write: whatever the storage layer does,
    the list, the detail and the dashboard leave the database as it was. *)
Theorem reads_change_nothing w :
  (forall u status supplier_id,
      db (snd (getImports u status supplier_id w)) = db w)
  /\ (forall u id, db (snd (getImport u id w)) = db w)
  /\ (forall since, db (snd (getDashboard since w)) = db w).
Proof.
  split; [|split].
  - intros u status supplier_id.
    unfold getImports, try_catch, bind, db_query, ret.
    destruct (next_fault (faults w)) as [f rest]. destruct f; reflexivity.
  - intros u id. unfold getImport, try_catch, bind, db_query, ret.
    destruct (next_fault (faults w)) as [f rest]. destruct f; [reflexivity|].
    destruct (select_import (detail_conditions u id) (db w));
      [reflexivity|].
    cbv beta iota. cbn [db faults].
    destruct (next_fault rest) as [f2 rest2]. destruct f2; reflexivity.
  - intros since. unfold getDashboard, try_catch, bind, db_query, ret.
    destruct (next_fault (faults w)) as [f rest]. destruct f; [reflexivity|].
    cbv beta iota. cbn [db faults].
    destruct (next_fault rest) as [f2 rest2]. destruct f2; [reflexivity|].
    cbv beta iota. cbn [db faults].
    destruct (next_fault rest2) as [f3 rest3]. destruct f3; reflexivity.
Qed.

(** ** The list *)

Lemma string_leb_trans a b c :
  String.leb a b = true -> String.leb b c = true -> String.leb a c = true.
Proof.
  unfold String.leb. revert b c.
  induction a as [|x a IH]; intros [|y b] [|z c]; simpl; try congruence.
  unfold Ascii.compare.
  destruct (N.compare_spec (N_of_ascii x) (N_of_ascii y)) as [Exy|Lxy|Gxy];
  destruct (N.compare_spec (N_of_ascii y) (N_of_ascii z)) as [Eyz|Lyz|Gyz];
  destruct (N.compare_spec (N_of_ascii x) (N_of_ascii z)) as [Exz|Lxz|Gxz];
    try congruence; try lia.
  apply IH.
Qed.

Lemma map_insert_sorted {A B : Type} (f : A -> B) leb leb' x l :
  (forall a b, leb a b = leb' (f a) (f b)) ->
  map f (insert_sorted leb x l) = insert_sorted leb' (f x) (map f l).
Proof.
  intros H. induction l as [|y r IH]; simpl; [reflexivity|].
  rewrite <- H. destruct (leb x y); simpl; [reflexivity|].
  rewrite IH. reflexivity.
Qed.

Lemma map_order_by {A B : Type} (f : A -> B) leb leb' l :
  (forall a b, leb a b = leb' (f a) (f b)) ->
  map f (order_by leb l) = order_by leb' (map f l).
Proof.
  intros H. induction l as [|x r IH]; simpl; [reflexivity|].
  rewrite (map_insert_sorted f leb leb' _ _ H), IH. reflexivity.
Qed.

Lemma map_where_all {A B : Type} (f : A -> B) conds (P : B -> bool) l :
  (forall v, forallb (fun c => c v) conds = P (f v)) ->
  map f (where_all conds l) = filter P (map f l).
Proof.
  intros H. unfold where_all. induction l as [|v l IH]; simpl; [reflexivity|].
  rewrite H. destruct (P (f v)); simpl; rewrite IH; reflexivity.
Qed.

Lemma list_conditions_listed u status supplier_id v :
  forallb (fun c => c v) (list_conditions u status supplier_id)
  = listed_for u status supplier_id (view_import v).
Proof.
  unfold list_conditions, listed_for, owned_by.
  destruct (is_admin u), (truthy status) as [s|], supplier_id as [p|];
    simpl; rewrite ?andb_true_r, ?andb_assoc; reflexivity.
Qed.

Lemma left_join_In {A B : Type} (l : list A) (r : list B) on x o :
  In (x, o) (left_join l r on) <->
  In x l /\ match o with
            | Some y => In y r /\ on x y = true
            | None => filter (on x) r = []
            end.
Proof.
  unfold left_join. rewrite in_flat_map. split.
  - intros (x' & Hx' & Hin).
    destruct (filter (on x') r) as [|y ms] eqn:E.
    + destruct Hin as [[= <- <-]|[]]. auto.
    + apply in_map_iff in Hin. destruct Hin as (z & [= <- <-] & Hz).
      rewrite <- E in Hz. apply filter_In in Hz. auto.
  - intros [Hx Ho]. exists x. split; [exact Hx|].
    destruct o as [y|].
    + destruct Ho as [Hy Hon].
      assert (Hf : In y (filter (on x) r)) by (apply filter_In; auto).
      destruct (filter (on x) r) as [|z ms]; [destruct Hf|].
      apply in_map_iff. exists y. auto.
    + rewrite Ho. left. reflexivity.
Qed.

Lemma filter_unique_id {B : Type} (id_of : B -> Z) (r : list B) k :
  NoDup (map id_of r) ->
  (List.length (filter (fun y => (k =? id_of y)%Z) r) <= 1)%nat.
Proof.
  induction r as [|y r IH]; simpl; intros Hnd; [lia|].
  inversion Hnd as [|? ? Hy Hr]; subst.
  destruct (Z.eqb_spec k (id_of y)) as [->|Hne]; [|apply IH; exact Hr].
  simpl. assert (E : filter (fun z => id_of y =? id_of z) r = []).
  { destruct (filter (fun z => id_of y =? id_of z) r) as [|z ms] eqn:E;
      [reflexivity|].
    assert (Hz : In z (filter (fun z => id_of y =? id_of z) r))
      by (rewrite E; left; reflexivity).
    apply filter_In in Hz. destruct Hz as [Hz Heq].
    apply Z.eqb_eq in Heq. exfalso. apply Hy. rewrite Heq.
    apply in_map. exact Hz. }
  rewrite E. simpl. lia.
Qed.

Lemma left_join_once {A B : Type} (l : list A) (r : list B) on :
  (forall x, (List.length (filter (on x) r) <= 1)%nat) ->
  map fst (left_join l r on) = l.
Proof.
  intros H. unfold left_join. induction l as [|x l IH]; [reflexivity|].
  cbn [flat_map]. rewrite map_app, IH. specialize (H x).
  destruct (filter (on x) r) as [|y [|z ms]]; simpl in *;
    [reflexivity|reflexivity|lia].
Qed.

Lemma imports_joined_once d :
  NoDup (map Suppliers.id (suppliers d)) ->
  NoDup (map Users.id (users d)) ->
  map view_import (imports_joined d) = imports d.
Proof.
  intros Hs Hu. unfold imports_joined.
  transitivity
    (map fst (map fst
       (left_join
          (left_join (imports d) (suppliers d)
             (fun i s => Imports.supplier_id i =? Suppliers.id s))
          (users d)
          (fun (v : Imports.row * option Suppliers.row) u =>
             Imports.user_id (fst v) =? Users.id u)))).
  { rewrite map_map. reflexivity. }
  rewrite left_join_once.
  - apply left_join_once. intros i. apply filter_unique_id. exact Hs.
  - intros v. apply filter_unique_id. exact Hu.
Qed.

Lemma has_id_false {B : Type} (id_of : B -> Z) (r : list B) k :
  filter (fun y => k =? id_of y) r = [] -> has_id id_of r k = false.
Proof.
  intros E. unfold has_id.
  destruct (existsb (fun y => id_of y =? k) r) eqn:Hex; [|reflexivity].
  apply existsb_exists in Hex. destruct Hex as (y & Hy & Hid).
  assert (Hf : In y (filter (fun y => k =? id_of y) r)).
  { apply filter_In. split; [exact Hy|]. rewrite Z.eqb_sym. exact Hid. }
  rewrite E in Hf. destruct Hf.
Qed.

Lemma newest_first_total (a b : import_view) :
  newest_first a b = true \/ newest_first b a = true.
Proof. unfold newest_first. apply String.leb_total. Qed.

Lemma select_imports_listed u status supplier_id d i :
  In i (map view_import
          (select_imports (list_conditions u status supplier_id) d)) <->
  In i (imports d) /\ listed_for u status supplier_id i = true.
Proof.
  unfold select_imports.
  rewrite (map_order_by view_import newest_first
             (fun a b => String.leb (Imports.created_at b)
                           (Imports.created_at a)))
    by reflexivity.
  rewrite order_by_In.
  rewrite (map_where_all view_import _ (listed_for u status supplier_id))
    by apply list_conditions_listed.
  rewrite filter_In. split; intros [Hin Hl]; (split; [|exact Hl]).
  - apply in_map_iff in Hin. destruct Hin as (v & <- & Hv).
    apply imports_joined_import. exact Hv.
  - destruct (left_join_covers (imports d) (suppliers d)
                (fun i s => Imports.supplier_id i =? Suppliers.id s) i Hin)
      as (s & Hs).
    destruct (left_join_covers _ (users d)
                (fun (v : Imports.row * option Suppliers.row) u =>
                   Imports.user_id (fst v) =? Users.id u) (i, s) Hs)
      as (o & Ho).
    apply in_map_iff. exists ((i, s), o). split; [reflexivity|exact Ho].
Qed.

(** The list of a caller holds exactly the orders the caller may see that
    pass the filters: every order for an administrator, the caller's own
    otherwise, restricted to the status asked for (if not empty) and to
    the supplier asked for.  The rows come newest first, and each carries
    the supplier and the creator the order references, or NULL when the
    reference dangles. *)
Theorem getImports_lists_exactly u status supplier_id d :
  exists rows,
    getImports u status supplier_id (mkWorld d [])
    = (json 200 (PImports rows), mkWorld d [])
    /\ (forall i, In i (map view_import rows) <->
                  In i (imports d) /\ listed_for u status supplier_id i = true)
    /\ StronglySorted newer_first (map view_import rows)
    /\ (forall v, In v rows ->
          joined_on Suppliers.id (suppliers d)
            (Imports.supplier_id (view_import v)) (snd (fst v))
          /\ joined_on Users.id (users d)
               (Imports.user_id (view_import v)) (snd v)).
Proof.
  eexists. split; [reflexivity|]. split; [|split].
  - intros i. apply select_imports_listed.
  - unfold select_imports.
    rewrite (map_order_by view_import newest_first
               (fun a b => String.leb (Imports.created_at b)
                             (Imports.created_at a)))
      by reflexivity.
    apply (order_by_strongly_sorted _ (fun _ => True)).
    + intros a b. apply String.leb_total.
    + intros a b c _ _ _ Hab Hbc. eapply string_leb_trans; eassumption.
    + apply Forall_forall. intros; exact I.
  - intros [[i s] o] Hv. unfold select_imports in Hv.
    apply order_by_In in Hv. apply where_all_In in Hv. destruct Hv as [Hv _].
    unfold imports_joined in Hv. apply left_join_In in Hv.
    destruct Hv as [His Ho]. apply left_join_In in His.
    destruct His as [_ Hs]. cbn [view_import fst snd] in *. split.
    + destruct s as [s|]; simpl.
      * destruct Hs as [Hs E]. apply Z.eqb_eq in E. auto.
      * apply has_id_false. exact Hs.
    + destruct o as [o|]; simpl.
      * destruct Ho as [Ho E]. apply Z.eqb_eq in E. auto.
      * apply has_id_false. exact Ho.
Qed.

(** With distinct supplier and user identifiers (their primary keys) no
    order is listed twice: the listed orders are a rearrangement of the
    stored orders that pass the filters. *)
Theorem getImports_lists_once u status supplier_id d :
  NoDup (map Suppliers.id (suppliers d)) ->
  NoDup (map Users.id (users d)) ->
  exists rows,
    fst (getImports u status supplier_id (mkWorld d []))
    = json 200 (PImports rows)
    /\ Permutation (filter (listed_for u status supplier_id) (imports d))
         (map view_import rows).
Proof.
  intros Hs Hu. eexists. split; [reflexivity|].
  unfold select_imports.
  rewrite (map_order_by view_import newest_first
             (fun a b => String.leb (Imports.created_at b)
                           (Imports.created_at a)))
    by reflexivity.
  rewrite (map_where_all view_import _ (listed_for u status supplier_id))
    by apply list_conditions_listed.
  cbn [db]. rewrite (imports_joined_once d Hs Hu). apply order_by_perm.
Qed.

(** ** The detail read *)

Lemma select_items_fst id d it :
  In it (map fst (select_items id d)) <->
  In it (import_items d) /\ param_eqb id (Items.import_id it) = true.
Proof.
  unfold select_items. rewrite in_map_iff. split.
  - intros ([it' p] & <- & Hv). apply where_all_In in Hv.
    destruct Hv as [Hv Hc]. apply left_join_fst in Hv. split; [exact Hv|].
    apply (Hc _ (or_introl eq_refl)).
  - intros [Hit Hid].
    destruct (left_join_covers (import_items d) (products d)
                (fun ii p => Items.product_id ii =? Products.id p) it Hit)
      as (p & Hp).
    exists (it, p). split; [reflexivity|]. apply where_all_In.
    split; [exact Hp|]. intros c [<-|[]]. exact Hid.
Qed.

Lemma select_items_once id d :
  NoDup (map Products.id (products d)) ->
  map fst (select_items id d)
  = filter (fun it => param_eqb id (Items.import_id it)) (import_items d).
Proof.
  intros Hnd. unfold select_items.
  rewrite (map_where_all (@fst Items.row (option Products.row))
             [fun v : item_view => param_eqb id (Items.import_id (fst v))]
             (fun it => param_eqb id (Items.import_id it))).
  - rewrite left_join_once; [reflexivity|].
    intros it. apply filter_unique_id. exact Hnd.
  - intros v. simpl. apply andb_true_r.
Qed.

Lemma select_items_joined id d v :
  In v (select_items id d) ->
  joined_on Products.id (products d) (Items.product_id (fst v)) (snd v).
Proof.
  destruct v as [it p]. unfold select_items. intros Hv.
  apply where_all_In in Hv. destruct Hv as [Hv _].
  apply left_join_In in Hv. destruct Hv as [_ Hp]. cbn [fst snd].
  destruct p as [p|]; simpl.
  - destruct Hp as [Hp E]. apply Z.eqb_eq in E. auto.
  - apply has_id_false. exact Hp.
Qed.

Lemma select_import_visible u id d order :
  In order (imports d) ->
  param_eqb id (Imports.id order) = true ->
  is_admin u = true \/ Imports.user_id order = Users.id u ->
  (forall other, In other (imports d) ->
     param_eqb id (Imports.id other) = true -> other = order) ->
  exists v rest,
    select_import (detail_conditions u id) d = v :: rest
    /\ view_import v = order.
Proof.
  intros Hin Hid Hvis Huniq.
  destruct (select_import (detail_conditions u id) d) as [|v rest] eqn:E.
  - exfalso.
    destruct (left_join_covers (imports d) (suppliers d)
                (fun i s => Imports.supplier_id i =? Suppliers.id s) order Hin)
      as (s & Hs).
    destruct (left_join_covers _ (users d)
                (fun (v : Imports.row * option Suppliers.row) u =>
                   Imports.user_id (fst v) =? Users.id u) (order, s) Hs)
      as (o & Ho).
    assert (H : In ((order, s), o) (select_import (detail_conditions u id) d)).
    { apply where_all_In. split; [exact Ho|].
      unfold detail_conditions. intros c Hc. apply in_app_or in Hc.
      destruct Hc as [[<-|[]]|Hc]; [exact Hid|].
      destruct (is_admin u) eqn:Ha; [destruct Hc|].
      destruct Hc as [<-|[]]. unfold owned_by. apply Z.eqb_eq.
      destruct Hvis as [Hv|Hv]; [discriminate|exact Hv]. }
    rewrite E in H. destruct H.
  - exists v, rest. split; [reflexivity|].
    assert (H : In v (select_import (detail_conditions u id) d))
      by (rewrite E; left; reflexivity).
    apply where_all_In in H. destruct H as [Hv Hc].
    apply Huniq; [apply imports_joined_import; exact Hv|].
    apply (Hc (fun v => param_eqb id (Imports.id (view_import v)))).
    unfold detail_conditions. left. reflexivity.
Qed.

Lemma NoDup_map_eq {A B : Type} (f : A -> B) (l : list A) a b :
  NoDup (map f l) -> In a l -> In b l -> f a = f b -> a = b.
Proof.
  induction l as [|x l IH]; simpl; intros Hnd Ha Hb E; [destruct Ha|].
  inversion Hnd as [|? ? Hx Hl]; subst.
  destruct Ha as [->|Ha], Hb as [->|Hb].
  - reflexivity.
  - exfalso. apply Hx. rewrite E. apply in_map. exact Hb.
  - exfalso. apply Hx. rewrite <- E. apply in_map. exact Ha.
  - apply IH; assumption.
Qed.

Lemma filter_none {A : Type} (P : A -> bool) (l : list A) :
  (forall x, In x l -> P x = false) -> filter P l = [].
Proof.
  induction l as [|x l IH]; simpl; intros H; [reflexivity|].
  rewrite (H x (or_introl eq_refl)). apply IH.
  intros y Hy. apply H. right. exact Hy.
Qed.

Lemma param_eqb_same id x y :
  param_eqb id x = true -> param_eqb id y = true -> x = y.
Proof.
  destruct id as [n|]; simpl; [|discriminate].
  rewrite !Z.eqb_eq. congruence.
Qed.

(** The detail read of an administrator, or of the owner, returns the
    stored order with that identifier together with exactly the item rows
    that reference the identifier, each with the product it names (NULL
    when the product is missing); with distinct product identifiers the
    items come once each, in insertion order. *)
Theorem getImport_returns_order u id d order :
  NoDup (map Imports.id (imports d)) ->
  In order (imports d) ->
  param_eqb id (Imports.id order) = true ->
  is_admin u = true \/ Imports.user_id order = Users.id u ->
  exists view items,
    getImport u id (mkWorld d []) = (json 200 (PImport view items), mkWorld d [])
    /\ view_import view = order
    /\ (forall it, In it (map fst items) <->
          In it (import_items d) /\ param_eqb id (Items.import_id it) = true)
    /\ (forall v, In v items ->
          joined_on Products.id (products d) (Items.product_id (fst v)) (snd v))
    /\ (NoDup (map Products.id (products d)) ->
        map fst items
        = filter (fun it => param_eqb id (Items.import_id it)) (import_items d)).
Proof.
  intros Hnd Hin Hid Hvis.
  destruct (select_import_visible u id d order Hin Hid Hvis)
    as (v & rest & E & Hv).
  { intros other Ho Hoid.
    apply (NoDup_map_eq Imports.id (imports d)); try assumption.
    apply (param_eqb_same id); assumption. }
  exists v, (select_items id d). split.
  { unfold getImport, try_catch, bind, db_query, ret.
    cbn [faults next_fault db]. rewrite E. reflexivity. }
  split; [exact Hv|]. split; [apply select_items_fst|].
  split; [apply select_items_joined|apply select_items_once].
Qed.

(** What is created can be read back: after a creation answered with 201,
    on a database whose item rows all reference stored orders and whose
    product identifiers are distinct, the detail read of the creator
    returns the header of the answer and one item row per item of the
    request, in order, with its product, quantity, unit price and line
    total. *)
Theorem postImport_then_getImport e u b w r w' :
  postImport e u b w = (r, w') ->
  status_code r = 201 ->
  (forall it, In it (import_items (db w)) ->
     has_id Imports.id (imports (db w)) (Items.import_id it) = true) ->
  NoDup (map Products.id (products (db w))) ->
  exists row sup view items,
    r = json 201 (PCreated "Importación creada exitosamente" (Some (row, sup)))
    /\ getImport u (PInt (Imports.id row)) (mkWorld (db w') [])
       = (json 200 (PImport view items), mkWorld (db w') [])
    /\ view_import view = row
    /\ Forall2 (item_row_of e (Imports.id row)) (Body.items b) (map fst items).
Proof.
  intros Hrun Hcode Href Hprod.
  destruct (postImport_created _ _ _ _ _ _ Hrun Hcode)
    as (_ & (_ & _ & _ & _ & HP & Himp) & (sup & ->) & rows & Hrows & Hitems & _).
  set (row := header_row e u b (db w)) in *.
  assert (Hfresh : forall other, In other (imports (db w)) ->
            Imports.id other <> Imports.id row).
  { intros other Ho. apply next_rowid_fresh. exact Ho. }
  destruct (select_import_visible u (PInt (Imports.id row)) (db w') row)
    as (v & rest & E & Hv).
  { rewrite Himp. apply in_or_app. right. left. reflexivity. }
  { simpl. apply Z.eqb_refl. }
  { right. reflexivity. }
  { intros other Ho Hid. rewrite Himp in Ho. apply in_app_or in Ho.
    destruct Ho as [Ho|[<-|[]]]; [|reflexivity].
    simpl in Hid. apply Z.eqb_eq in Hid. symmetry in Hid.
    exfalso. exact (Hfresh other Ho Hid). }
  exists row, sup, v, (select_items (PInt (Imports.id row)) (db w')).
  split; [reflexivity|]. split.
  { unfold getImport, try_catch, bind, db_query, ret.
    cbn [faults next_fault db]. rewrite E. reflexivity. }
  split; [exact Hv|].
  rewrite select_items_once by (rewrite HP; exact Hprod).
  rewrite Hitems, filter_app.
  assert (Hold : filter (fun it => param_eqb (PInt (Imports.id row))
                                     (Items.import_id it))
                   (import_items (db w)) = []).
  { apply filter_none. intros it Hit.
    simpl. apply Z.eqb_neq. intros Heq.
    specialize (Href it Hit). unfold has_id in Href.
    apply existsb_exists in Href. destruct Href as (other & Ho & Hid).
    apply Z.eqb_eq in Hid. apply (Hfresh other Ho).
    rewrite Hid. symmetry. exact Heq. }
  rewrite Hold. cbn [app].
  assert (Hnew : filter (fun it => param_eqb (PInt (Imports.id row))
                                     (Items.import_id it)) rows
                 = rows).
  { clear - Hrows. generalize dependent (Imports.id row). intros n Hrows.
    induction Hrows as [|it r items rows Hr _ IH]; [reflexivity|].
    cbn [filter param_eqb]. destruct Hr as (Hid & _).
    rewrite Hid, Z.eqb_refl. cbn [param_eqb] in IH. rewrite IH.
    reflexivity. }
  rewrite Hnew. exact Hrows.
Qed.

(** ** An update, then the list *)

(** After a status update by an administrator the order is found under
    its new status and under no other: a list filtered by a status shows
    the updated order to a viewer exactly when the filter is the new
    status and the viewer is an administrator or the owner. *)
Theorem updated_order_listed_by_status e a id s tracking d order
  viewer filter :
  is_admin a = true ->
  In s validStatuses ->
  In order (imports d) ->
  param_eqb id (Imports.id order) = true ->
  filter <> ""%string ->
  let d' := db (snd (putImportStatus e (Some a) id (Some s) tracking
                       (mkWorld d []))) in
  let updated := set_status e s (truthy tracking) order in
  exists rows,
    fst (getImports viewer (Some filter) None (mkWorld d' []))
    = json 200 (PImports rows)
    /\ In updated (imports d')
    /\ (In updated (map view_import rows) <->
        filter = s
        /\ (is_admin viewer = true
            \/ Imports.user_id order = Users.id viewer)).
Proof.
  intros Ha Hs Hin Hid Hf d' updated.
  assert (Hd : d' = status_updated e s (truthy tracking) id d).
  { subst d'. rewrite (putImportStatus_admin _ _ _ _ _ Ha).
    rewrite (putStatus_run _ _ _ _ _ _ Hs). reflexivity. }
  assert (Hup : In updated (imports d')).
  { rewrite Hd. cbn [status_updated imports]. unfold updated_imports.
    apply in_map_iff. exists order. rewrite Hid. auto. }
  eexists. split; [reflexivity|]. split; [exact Hup|].
  cbn [db]. rewrite select_imports_listed.
  unfold listed_for, truthy.
  destruct (String.eqb_spec filter ""); [contradiction|].
  subst updated. cbn [set_status Imports.user_id Imports.status].
  rewrite andb_true_r, andb_true_iff, orb_true_iff, Z.eqb_eq, String.eqb_eq.
  split.
  - intros [_ [Hv ->]]. auto.
  - intros [-> Hv]. auto.
Qed.

(** ** The monthly trend *)




(** ** Rejected storage calls *)

(** When the first storage call of a handler is rejected, the handler
    answers with the 500 internal error and the database is unchanged. *)
Theorem first_fault_is_internal_error w rest :
  faults w = true :: rest ->
  (forall u status supplier_id,
      getImports u status supplier_id w = (internal_error, mkWorld (db w) rest))
  /\ (forall u id, getImport u id w = (internal_error, mkWorld (db w) rest))
  /\ (forall since, getDashboard since w = (internal_error, mkWorld (db w) rest))
  /\ (forall e u b, validate b = None ->
        postImport e u b w = (internal_error, mkWorld (db w) rest))
  /\ (forall e a id s tracking,
        is_admin a = true -> In s validStatuses ->
        putImportStatus e (Some a) id (Some s) tracking w
        = (internal_error, mkWorld (db w) rest)).
Proof.
  intros Hf. split; [|split; [|split; [|split]]].
  - intros u status supplier_id.
    unfold getImports, try_catch, bind, db_query. rewrite Hf. reflexivity.
  - intros u id. unfold getImport, try_catch, bind, db_query.
    rewrite Hf. reflexivity.
  - intros since. unfold getDashboard, try_catch, bind, db_query.
    rewrite Hf. reflexivity.
  - intros e u b Hvalid. unfold postImport, try_catch. rewrite Hvalid.
    unfold bind at 1. unfold db_run at 1. rewrite Hf. reflexivity.
  - intros e a id s tracking Ha Hs.
    rewrite (putImportStatus_admin _ _ _ _ _ Ha). destruct w as [d fs].
    cbn [faults] in Hf. subst fs.
    rewrite (putStatus_run _ _ _ _ _ _ Hs). reflexivity.
Qed.

(** ** Import codes and time *)

Lemma upper_digit36 d :
  0 <= d < 36 ->
  value36_upper (upper_ascii (digit36 d)) = d
  /\ upper_ascii (digit36 d) <> "-"%char.
Proof.
  intros H. unfold digit36.
  assert (Hdash : forall n, (n < 256)%nat -> n <> 45%nat ->
            ascii_of_nat n <> "-"%char).
  { intros n Hn Hne E. apply (f_equal nat_of_ascii) in E.
    rewrite nat_ascii_embedding in E by exact Hn.
    change (nat_of_ascii "-"%char) with 45%nat in E. lia. }
  destruct (d <? 10) eqn:E.
  - apply Z.ltb_lt in E. unfold upper_ascii, value36_upper.
    rewrite nat_ascii_embedding by lia.
    destruct (Nat.leb_spec 97 (Z.to_nat (48 + d))); [lia|]. cbn [andb].
    rewrite nat_ascii_embedding by lia. rewrite Z2Nat.id by lia.
    split; [|apply Hdash; lia].
    destruct (48 + d <? 58) eqn:E2; [lia|]. apply Z.ltb_ge in E2. lia.
  - apply Z.ltb_ge in E. unfold upper_ascii, value36_upper.
    rewrite nat_ascii_embedding by lia.
    destruct (Nat.leb_spec 97 (Z.to_nat (97 + (d - 10)))); [|lia].
    destruct (Nat.leb_spec (Z.to_nat (97 + (d - 10))) 122); [|lia].
    cbn [andb]. rewrite nat_ascii_embedding by lia.
    split; [|apply Hdash; lia].
    rewrite Nat2Z.inj_sub, Z2Nat.id by lia.
    destruct (97 + (d - 10) - Z.of_nat 32 <? 58) eqn:E2; [|lia].
    apply Z.ltb_lt in E2. lia.
Qed.

Lemma parse36_upper_from_app acc s t :
  parse36_upper_from acc (s ++ t)
  = parse36_upper_from (parse36_upper_from acc s) t.
Proof.
  revert acc. induction s as [|c s IH]; intros acc; simpl; [reflexivity|].
  apply IH.
Qed.

Lemma without_app c s t : without c (s ++ t) <-> without c s /\ without c t.
Proof.
  induction s as [|x s IH]; simpl; [tauto|]. rewrite IH. tauto.
Qed.

Lemma toString36_fuel_upper fuel n :
  0 <= n < 36 ^ Z.of_nat fuel ->
  parse36_upper_from 0 (toUpperCase (toString36_fuel fuel n)) = n
  /\ without "-" (toUpperCase (toString36_fuel fuel n)).
Proof.
  revert n. induction fuel as [|f IH]; intros n Hn.
  - change (36 ^ Z.of_nat 0) with 1 in Hn.
    assert (n = 0) as -> by lia. split; [reflexivity|exact I].
  - cbn [toString36_fuel]. destruct (n <? 36) eqn:E.
    + apply Z.ltb_lt in E. cbn [toUpperCase parse36_upper_from without].
      destruct (upper_digit36 n) as [Hv Hd]; [lia|].
      rewrite Hv. split; [lia|]. split; [exact Hd|exact I].
    + apply Z.ltb_ge in E. rewrite toUpperCase_app, parse36_upper_from_app.
      rewrite without_app.
      destruct (IH (n / 36)) as [Hp Hw].
      { split; [apply Z.div_pos; lia|].
        apply Z.div_lt_upper_bound; [lia|].
        rewrite Nat2Z.inj_succ, Z.pow_succ_r in Hn by lia. lia. }
      destruct (upper_digit36 (n mod 36)) as [Hv Hd];
        [apply Z.mod_pos_bound; lia|].
      rewrite Hp. cbn [toUpperCase parse36_upper_from without]. rewrite Hv.
      pose proof (Z.div_mod n 36 ltac:(lia)).
      split; [lia|]. split; [exact Hw|]. split; [exact Hd|exact I].
Qed.

Lemma toString36_upper n :
  0 <= n ->
  parse36_upper_from 0 (toUpperCase (toString36 n)) = n
  /\ without "-" (toUpperCase (toString36 n)).
Proof.
  intros Hn. unfold toString36. apply toString36_fuel_upper.
  split; [exact Hn|].
  rewrite Nat2Z.inj_succ, Z2Nat.id by apply Z.log2_nonneg.
  destruct (Z.eq_dec n 0) as [->|Hne]; [reflexivity|].
  pose proof (Z.log2_spec n ltac:(lia)) as [_ Hlt].
  eapply Z.lt_le_trans; [exact Hlt|].
  apply Z.pow_le_mono_l. lia.
Qed.

Lemma split_at_first c a b r s :
  without c a -> without c b ->
  (a ++ String c r)%string = (b ++ String c s)%string -> a = b /\ r = s.
Proof.
  revert b. induction a as [|x a IH]; intros [|y b]; simpl.
  - intros _ _ [= ->]. auto.
  - intros _ [Hy _] [= E _]. congruence.
  - intros [Hx _] _ [= E _]. congruence.
  - intros [_ Ha] [_ Hb] [= -> E]. destruct (IH b Ha Hb E) as [-> ->]. auto.
Qed.

Lemma generateImportCode_eq e :
  generateImportCode e
  = ("IMP-" ++ toUpperCase (toString36 (date_now e)) ++ "-"
     ++ toUpperCase (substring 2 5 (random_base36 e)))%string.
Proof.
  destruct (generateImportCode_format e) as (random & -> & -> & _).
  reflexivity.
Qed.

(** Two codes are equal exactly when they were generated in the same
    millisecond with the same random part: codes generated at different
    times always differ. *)
Theorem generateImportCode_equal_iff e1 e2 :
  0 <= date_now e1 -> 0 <= date_now e2 ->
  (generateImportCode e1 = generateImportCode e2 <->
   date_now e1 = date_now e2
   /\ toUpperCase (substring 2 5 (random_base36 e1))
      = toUpperCase (substring 2 5 (random_base36 e2))).
Proof.
  intros H1 H2. rewrite !generateImportCode_eq. split.
  - intros E. simpl in E. injection E as E.
    destruct (toString36_upper _ H1) as [P1 W1].
    destruct (toString36_upper _ H2) as [P2 W2].
    apply split_at_first in E; [|assumption|assumption].
    destruct E as [Et Er]. split; [|exact Er].
    rewrite <- P1, <- P2, Et. reflexivity.
  - intros [-> ->]. reflexivity.
Qed.

(** ** Authentication *)

Lemma split_without sep s : without sep s -> split sep s = [s].
Proof.
  induction s as [|c s IH]; simpl; [reflexivity|].
  intros [Hc Hs]. rewrite (proj2 (Ascii.eqb_neq c sep) Hc), (IH Hs).
  reflexivity.
Qed.

Lemma split_first sep a r :
  without sep a ->
  split sep (a ++ String sep r) = a :: split sep r.
Proof.
  induction a as [|c a IH]; simpl.
  - intros _. rewrite Ascii.eqb_refl. reflexivity.
  - intros [Hc Ha]. rewrite (proj2 (Ascii.eqb_neq c sep) Hc), (IH Ha).
    reflexivity.
Qed.

Lemma token_of_pair scheme token :
  without " " scheme -> without " " token -> token <> ""%string ->
  token_of (Some (scheme ++ String " " token)%string) = Some token.
Proof.
  intros Hs Ht Hne. unfold token_of.
  destruct (String.eqb_spec (scheme ++ String " " token) "") as [E|_].
  { destruct scheme; discriminate. }
  rewrite (split_first " " scheme token Hs), (split_without " " token Ht).
  cbn [nth_error]. unfold truthy.
  destruct (String.eqb_spec token ""); [contradiction|reflexivity].
Qed.

Lemma token_of_without h : without " " h -> token_of (Some h) = None.
Proof.
  intros Hh. unfold token_of.
  destruct (String.eqb h ""); [reflexivity|].
  rewrite (split_without " " h Hh). reflexivity.
Qed.

Lemma select_user_found uid d u :
  NoDup (map Users.id (users d)) -> In u (users d) -> Users.id u = uid ->
  select_user uid d = [u].
Proof.
  intros Hnd Hin Hid. unfold select_user, where_all.
  induction (users d) as [|x l IH]; [destruct Hin|].
  simpl in Hnd. inversion Hnd as [|? ? Hx Hl]; subst.
  cbn [filter forallb]. rewrite andb_true_r.
  destruct Hin as [->|Hin].
  - rewrite Z.eqb_refl. f_equal. apply filter_none.
    intros y Hy. cbn [forallb]. rewrite andb_true_r. apply Z.eqb_neq.
    intros E. apply Hx. rewrite <- E. apply in_map. exact Hy.
  - destruct (Z.eqb_spec (Users.id x) (Users.id u)) as [E|_].
    + exfalso. apply Hx. rewrite E. apply in_map. exact Hin.
    + apply IH; assumption.
Qed.

Lemma select_user_missing uid d :
  (forall u, In u (users d) -> Users.id u <> uid) -> select_user uid d = [].
Proof.
  intros H. unfold select_user. apply where_all_none.
  intros u Hu. eexists. split; [left; reflexivity|].
  apply Z.eqb_neq. apply H. exact Hu.
Qed.

Lemma authenticateToken_user jwt header token uid next d u :
  token_of header = Some token -> jwt token = Some uid ->
  NoDup (map Users.id (users d)) -> In u (users d) -> Users.id u = uid ->
  authenticateToken jwt header next (mkWorld d []) = next u (mkWorld d []).
Proof.
  intros Ht Hj Hnd Hin Hid. unfold authenticateToken. rewrite Ht, Hj.
  unfold db_query. cbn [faults next_fault db].
  rewrite (select_user_found uid d u Hnd Hin Hid). reflexivity.
Qed.

(** A request without a usable token is answered with 401 before anything
    else happens: with no [Authorization] header, or with a header that
    contains no space, no token is verified, no storage call is made and no
    handler runs. *)
Theorem authenticateToken_requires_token jwt header next w :
  header = None \/ (exists h, header = Some h /\ without " " h) ->
  authenticateToken jwt header next w
  = (json 401 (PError "Token de acceso requerido"), w).
Proof.
  intros H. unfold authenticateToken.
  assert (E : token_of header = None).
  { destruct H as [->|(h & -> & Hh)]; [reflexivity|].
    apply token_of_without. exact Hh. }
  rewrite E. reflexivity.
Qed.

(** The word before the token is not looked at: a header made of any word
    without spaces, a space and a token is treated as the same token under
    [Bearer]. *)
Theorem authenticateToken_any_scheme jwt scheme token next w :
  without " " scheme -> without " " token -> token <> ""%string ->
  authenticateToken jwt (Some (scheme ++ String " " token)%string) next w
  = authenticateToken jwt (Some ("Bearer" ++ String " " token)%string) next w.
Proof.
  intros Hs Ht Hne. unfold authenticateToken.
  rewrite (token_of_pair scheme token Hs Ht Hne).
  rewrite (token_of_pair "Bearer" token); [reflexivity| |exact Ht|exact Hne].
  simpl. repeat split; discriminate.
Qed.

(** What a presented token leads to.  A token that does not verify is
    answered with 403 without any storage call.  A token that verifies is
    answered with 403 as well when the lookup of its user is rejected by
    the storage layer or finds no user; otherwise the handler runs with the
    stored row of the user, so with the role the database holds at the time
    of the request. *)
Theorem authenticateToken_outcome jwt header token next d :
  token_of header = Some token ->
  (forall fs, jwt token = None ->
     authenticateToken jwt header next (mkWorld d fs)
     = (invalid_token, mkWorld d fs))
  /\ (forall uid rest, jwt token = Some uid ->
        authenticateToken jwt header next (mkWorld d (true :: rest))
        = (invalid_token, mkWorld d rest))
  /\ (forall uid, jwt token = Some uid ->
        (forall u, In u (users d) -> Users.id u <> uid) ->
        authenticateToken jwt header next (mkWorld d [])
        = (invalid_token, mkWorld d []))
  /\ (forall uid u, jwt token = Some uid ->
        NoDup (map Users.id (users d)) ->
        In u (users d) -> Users.id u = uid ->
        authenticateToken jwt header next (mkWorld d [])
        = next u (mkWorld d [])).
Proof.
  intros Ht. split; [|split; [|split]].
  - intros fs Hj. unfold authenticateToken. rewrite Ht, Hj. reflexivity.
  - intros uid rest Hj. unfold authenticateToken. rewrite Ht, Hj.
    reflexivity.
  - intros uid Hj Hnone. unfold authenticateToken. rewrite Ht, Hj.
    unfold db_query. cbn [faults next_fault db].
    rewrite (select_user_missing uid d Hnone). reflexivity.
  - intros uid u Hj Hnd Hin Hid.
    apply (authenticateToken_user jwt header token uid); assumption.
Qed.

(** ** The routes *)

(** Through the route, a caller whose stored role is not [admin] cannot
    update a status: with a verified token of a stored user the answer is
    the 403 of [authorize], whatever the order and whoever owns it, and the
    database is unchanged. *)
Theorem route_putImportStatus_forbidden jwt e header token uid u d
  id status tracking :
  token_of header = Some token -> jwt token = Some uid ->
  NoDup (map Users.id (users d)) -> In u (users d) -> Users.id u = uid ->
  is_admin u = false ->
  route_putImportStatus jwt e header id status tracking (mkWorld d [])
  = (json 403 (PError "Permisos insuficientes"), mkWorld d []).
Proof.
  intros Ht Hj Hnd Hin Hid Hrole. unfold route_putImportStatus.
  rewrite (authenticateToken_user jwt header token uid _ d u Ht Hj Hnd Hin Hid).
  unfold putImportStatus, authorize. unfold is_admin in Hrole. simpl.
  rewrite Hrole. reflexivity.
Qed.

(** Through the route, the list of a caller whose stored role is not
    [admin] holds that caller's orders only, and all of them when no filter
    is given. *)
Theorem route_getImports_own_orders jwt header token uid u d :
  token_of header = Some token -> jwt token = Some uid ->
  NoDup (map Users.id (users d)) -> In u (users d) -> Users.id u = uid ->
  is_admin u = false ->
  exists rows,
    route_getImports jwt header None None (mkWorld d [])
    = (json 200 (PImports rows), mkWorld d [])
    /\ forall i, In i (map view_import rows) <->
                 In i (imports d) /\ Imports.user_id i = uid.
Proof.
  intros Ht Hj Hnd Hin Hid Hrole. unfold route_getImports.
  rewrite (authenticateToken_user jwt header token uid _ d u Ht Hj Hnd Hin Hid).
  eexists. split; [reflexivity|]. intros i.
  rewrite select_imports_listed. unfold listed_for. rewrite Hrole.
  cbn [truthy orb]. rewrite !andb_true_r, Z.eqb_eq, Hid. reflexivity.
Qed.




(** * The further properties at work on the sample data *)

(** A request without items. *)
Lemma postImport_rejects_bad_items_witness :
  exists label,
    postImport sample_env importer1 (Body.mk 1 1705276800000 None None [])
      (mkWorld sample_db [])
    = (json 400 (PInvalid label), mkWorld sample_db []).
Proof.
  apply (postImport_rejects_bad_items sample_env importer1
           (Body.mk 1 1705276800000 None None []) (mkWorld sample_db [])).
  left. reflexivity.
Defined.

(** The read-back of an update of the sample order is rejected. *)
Lemma putImportStatus_readback_fault_witness :
  putImportStatus sample_env (Some admin) (PInt 1) (Some "shipped") None
    (mkWorld sample_db1 [false; true])
  = (internal_error,
     mkWorld (status_updated sample_env "shipped" None (PInt 1) sample_db1) [])
  /\ map Imports.status
       (imports (status_updated sample_env "shipped" None (PInt 1) sample_db1))
     = ["shipped"%string].
Proof.
  destruct (putImportStatus_readback_fault sample_env admin (PInt 1) "shipped"
              None sample_db1 [] eq_refl)
    as [Hrun _].
  - right. right. left. reflexivity.
  - split; [exact Hrun|]. vm_compute. reflexivity.
Defined.

(** The sample order is shipped, then delivered. *)
Lemma putImportStatus_last_wins_witness :
  putImportStatus later_env (Some admin) (PInt 1) (Some "delivered") None
    (snd (putImportStatus sample_env (Some admin) (PInt 1) (Some "shipped")
            (Some "TRK123") (mkWorld sample_db1 [])))
  = putImportStatus later_env (Some admin) (PInt 1) (Some "delivered") None
      (mkWorld sample_db1 []).
Proof.
  apply (putImportStatus_last_wins sample_env later_env admin (PInt 1)
           "shipped" "delivered" (Some "TRK123") None sample_db1).
  - reflexivity.
  - right. right. left. reflexivity.
  - do 5 right. left. reflexivity.
Defined.

(** A second creation and an update on the sample database. *)
Lemma import_ids_stay_distinct_witness :
  NoDup (map Imports.id
           (imports (db (snd (postImport later_env importer2 sample_body
                                (mkWorld sample_db1 []))))))
  /\ NoDup (map Imports.id
              (imports (db (snd (putImportStatus sample_env (Some admin)
                                   (PInt 1) (Some "shipped") None
                                   (mkWorld sample_db1 [])))))).
Proof.
  assert (Hnd : NoDup (map Imports.id (imports (db (mkWorld sample_db1 []))))).
  { vm_compute. repeat constructor. intros []. }
  destruct (import_ids_stay_distinct (mkWorld sample_db1 []) Hnd) as [Hc Hu].
  split; [apply Hc|apply Hu].
Defined.

(** The header of the sample creation. *)
Lemma postImport_initial_state_witness :
  exists row sup,
    fst (postImport sample_env importer1 sample_body (mkWorld sample_db []))
    = json 201 (PCreated "Importación creada exitosamente" (Some (row, sup)))
    /\ Imports.status row = "pending"%string
    /\ Imports.user_id row = 2
    /\ Imports.tracking_number row = None.
Proof.
  destruct (postImport_initial_state sample_env importer1 sample_body
              (mkWorld sample_db []) _ _ (surjective_pairing _))
    as (row & sup & Hr & _ & Hs & Hu & Ht & _).
  - vm_compute. reflexivity.
  - exists row, sup. auto.
Defined.

(** The list of the owner of the sample order. *)
Lemma getImports_lists_once_witness :
  exists rows,
    fst (getImports importer1 None None (mkWorld sample_db1 []))
    = json 200 (PImports rows)
    /\ Permutation (filter (listed_for importer1 None None) (imports sample_db1))
         (map view_import rows).
Proof.
  apply (getImports_lists_once importer1 None None sample_db1).
  - vm_compute. repeat constructor; simpl; lia.
  - vm_compute. repeat constructor; simpl; lia.
Defined.

(** The owner reads the sample order. *)
Lemma getImport_returns_order_witness :
  exists view items,
    getImport importer1 (PInt 1) (mkWorld sample_db1 [])
    = (json 200 (PImport view items), mkWorld sample_db1 [])
    /\ view_import view = header_row sample_env importer1 sample_body sample_db
    /\ map fst items = import_items sample_db1.
Proof.
  destruct (getImport_returns_order importer1 (PInt 1) sample_db1
              (header_row sample_env importer1 sample_body sample_db))
    as (view & items & Hrun & Hview & _ & _ & Hitems).
  - vm_compute. repeat constructor. intros [].
  - vm_compute. left. reflexivity.
  - reflexivity.
  - right. reflexivity.
  - exists view, items. split; [exact Hrun|]. split; [exact Hview|].
    rewrite Hitems; [vm_compute; reflexivity|].
    vm_compute. repeat constructor; simpl; lia.
Defined.

(** The sample creation, read back by its creator. *)
Lemma postImport_then_getImport_witness :
  let out := postImport sample_env importer1 sample_body (mkWorld sample_db []) in
  exists row sup view items,
    fst out
    = json 201 (PCreated "Importación creada exitosamente" (Some (row, sup)))
    /\ getImport importer1 (PInt (Imports.id row)) (mkWorld (db (snd out)) [])
       = (json 200 (PImport view items), mkWorld (db (snd out)) [])
    /\ view_import view = row
    /\ Forall2 (item_row_of sample_env (Imports.id row))
         (Body.items sample_body) (map fst items).
Proof.
  cbv zeta.
  apply (postImport_then_getImport sample_env importer1 sample_body
           (mkWorld sample_db [])).
  - apply surjective_pairing.
  - vm_compute. reflexivity.
  - intros it [].
  - vm_compute. repeat constructor; simpl; lia.
Defined.

(** The sample order, shipped, under the filters [shipped] and [pending]
    of its owner's list. *)
Lemma updated_order_listed_by_status_witness :
  let d' := db (snd (putImportStatus sample_env (Some admin) (PInt 1)
                       (Some "shipped") (Some "TRK123")
                       (mkWorld sample_db1 []))) in
  let updated := set_status sample_env "shipped" (Some "TRK123")
                   (header_row sample_env importer1 sample_body sample_db) in
  (exists rows,
      fst (getImports importer1 (Some "shipped") None (mkWorld d' []))
      = json 200 (PImports rows)
      /\ In updated (map view_import rows))
  /\ (exists rows,
        fst (getImports importer1 (Some "pending") None (mkWorld d' []))
        = json 200 (PImports rows)
        /\ ~ In updated (map view_import rows)).
Proof.
  cbv zeta.
  assert (Hin : In (header_row sample_env importer1 sample_body sample_db)
                  (imports sample_db1)) by (vm_compute; left; reflexivity).
  assert (Hs : In "shipped"%string validStatuses)
    by (right; right; left; reflexivity).
  split.
  - destruct (updated_order_listed_by_status sample_env admin (PInt 1)
                "shipped" (Some "TRK123") sample_db1
                (header_row sample_env importer1 sample_body sample_db)
                importer1 "shipped" eq_refl Hs Hin eq_refl)
      as (rows & Hrun & _ & Hiff); [discriminate|].
    exists rows. split; [exact Hrun|]. apply Hiff.
    split; [reflexivity|right; reflexivity].
  - destruct (updated_order_listed_by_status sample_env admin (PInt 1)
                "shipped" (Some "TRK123") sample_db1
                (header_row sample_env importer1 sample_body sample_db)
                importer1 "pending" eq_refl Hs Hin eq_refl)
      as (rows & Hrun & _ & Hiff); [discriminate|].
    exists rows. split; [exact Hrun|]. intros H. apply Hiff in H.
    destruct H as [H _]. discriminate.
Defined.

(** Every handler on a storage layer that rejects the next call. *)
Lemma first_fault_is_internal_error_witness :
  getImports admin None None (mkWorld sample_db1 [true])
  = (internal_error, mkWorld sample_db1 [])
  /\ postImport later_env importer2 sample_body (mkWorld sample_db1 [true])
     = (internal_error, mkWorld sample_db1 []).
Proof.
  destruct (first_fault_is_internal_error (mkWorld sample_db1 [true]) []
              eq_refl)
    as (Hlist & _ & _ & Hcreate & _).
  split; [apply Hlist|apply Hcreate]. vm_compute. reflexivity.
Defined.

(** The codes of the two sample environments. *)
Lemma generateImportCode_equal_iff_witness :
  generateImportCode sample_env <> generateImportCode later_env.
Proof.
  intros E.
  apply (generateImportCode_equal_iff sample_env later_env) in E.
  - destruct E as [E _]. vm_compute in E. discriminate.
  - vm_compute. discriminate.
  - vm_compute. discriminate.
Defined.

(** A header holding a single word. *)
Lemma authenticateToken_requires_token_witness :
  authenticateToken sample_jwt (Some "token-admin")
    (fun u => getImports u None None) (mkWorld sample_db1 [])
  = (json 401 (PError "Token de acceso requerido"), mkWorld sample_db1 []).
Proof.
  apply authenticateToken_requires_token. right.
  exists "token-admin"%string. split; [reflexivity|].
  simpl. repeat split; discriminate.
Defined.

(** The administrator's token under the scheme [Basic]. *)
Lemma authenticateToken_any_scheme_witness :
  authenticateToken sample_jwt (Some "Basic token-admin")
    (fun u => getImports u None None) (mkWorld sample_db1 [])
  = authenticateToken sample_jwt (Some "Bearer token-admin")
      (fun u => getImports u None None) (mkWorld sample_db1 []).
Proof.
  apply (authenticateToken_any_scheme sample_jwt "Basic" "token-admin").
  - simpl. repeat split; discriminate.
  - simpl. repeat split; discriminate.
  - discriminate.
Defined.

(** A token whose user is not stored, and the administrator's token. *)
Lemma authenticateToken_outcome_witness :
  authenticateToken sample_jwt (Some "Bearer token-ghost")
    (fun u => getImports u None None) (mkWorld sample_db1 [])
  = (invalid_token, mkWorld sample_db1 [])
  /\ authenticateToken sample_jwt (Some "Bearer token-admin")
       (fun u => getImports u None None) (mkWorld sample_db1 [])
     = getImports admin None None (mkWorld sample_db1 []).
Proof.
  split.
  - destruct (authenticateToken_outcome sample_jwt (Some "Bearer token-ghost")
                "token-ghost" (fun u => getImports u None None) sample_db1
                eq_refl)
      as (_ & _ & Hmissing & _).
    apply (Hmissing 99 eq_refl). intros u Hu. vm_compute in Hu.
    destruct Hu as [<-|[<-|[<-|[]]]]; discriminate.
  - destruct (authenticateToken_outcome sample_jwt (Some "Bearer token-admin")
                "token-admin" (fun u => getImports u None None) sample_db1
                eq_refl)
      as (_ & _ & _ & Hfound).
    apply (Hfound 1 admin eq_refl).
    + vm_compute. repeat constructor; simpl; lia.
    + vm_compute. left. reflexivity.
    + reflexivity.
Defined.

Lemma sample_users_distinct : NoDup (map Users.id (users sample_db1)).
Proof. vm_compute. repeat constructor; simpl; lia. Defined.

(** The owner of the sample order tries to cancel it through the route. *)
Lemma route_putImportStatus_forbidden_witness :
  route_putImportStatus sample_jwt sample_env (Some "Bearer token-importer1")
    (PInt 1) (Some "cancelled") None (mkWorld sample_db1 [])
  = (json 403 (PError "Permisos insuficientes"), mkWorld sample_db1 []).
Proof.
  apply (route_putImportStatus_forbidden sample_jwt sample_env
           (Some "Bearer token-importer1") "token-importer1" 2 importer1).
  - reflexivity.
  - reflexivity.
  - exact sample_users_distinct.
  - vm_compute. right. left. reflexivity.
  - reflexivity.
  - reflexivity.
Defined.

(** The second importer, who owns no order, lists through the route. *)
Lemma route_getImports_own_orders_witness :
  exists rows,
    route_getImports sample_jwt (Some "Bearer token-importer2") None None
      (mkWorld sample_db1 [])
    = (json 200 (PImports rows), mkWorld sample_db1 [])
    /\ forall i, In i (map view_import rows) <->
                 In i (imports sample_db1) /\ Imports.user_id i = 3.
Proof.
  apply (route_getImports_own_orders sample_jwt
           (Some "Bearer token-importer2") "token-importer2" 3 importer2).
  - reflexivity.
  - reflexivity.
  - exact sample_users_distinct.
  - vm_compute. right. right. left. reflexivity.
  - reflexivity.
  - reflexivity.
Defined.


